(** * Barber Booking API: a shallow embedding of [src/main.py] and [src/schemas.py]

    The development has four parts.
    - [PyStr]: Python strings as lists of Unicode code points, with the
      character classes [str.isspace] / [str.isdigit] of CPython 3.11
      (Unicode 14.0), and the privacy helpers [mask_name] / [mask_phone].
    - [Booking]: the appointment collection of the document store, the
      [datetime] arithmetic used to compute [end_time], and the handlers
      [check_availability], [create_appointment] and [cancel_appointment].
    - [Catalog]: the [barber] and [service] collections, the startup seed
      [seed_defaults] and the catalog endpoints.
    - [Listing]: the public appointment listing [list_appointments].
    The proofs follow in [BookingFacts], [MaskFacts], [MaskMore],
    [BookingMore], [ListingFacts] and [CatalogFacts]. *)

From Stdlib Require Import List ZArith NArith String Ascii Bool Lia.
From Stdlib Require QArith.
Import ListNotations.

Module PyStr.

(** A Python [str] is a sequence of code points. *)
Definition pychar := N.
Definition pystr := list pychar.

(** Source literals (all ASCII) as code point lists. *)
Fixpoint lit (s : string) : pystr :=
  match s with
  | EmptyString => []
  | String c r => N_of_ascii c :: lit r
  end.

Definition in_ranges (rs : list (N * N)) (c : pychar) : bool :=
  existsb (fun '(lo, hi) => (lo <=? c)%N && (c <=? hi)%N) rs.

(** Code points for which CPython's [str.isspace] holds; [str.strip()]
    uses the same table. *)
Definition space_ranges : list (N * N) :=
  [(9, 13); (28, 32); (133, 133); (160, 160); (5760, 5760); (8192, 8202);
   (8232, 8233); (8239, 8239); (8287, 8287); (12288, 12288)]%N.

Definition py_isspace (c : pychar) : bool := in_ranges space_ranges c.

(** Code points for which CPython's [str.isdigit] holds (Unicode 14.0). *)
Definition digit_ranges : list (N * N) :=
  [(48, 57); (178, 179); (185, 185); (1632, 1641); (1776, 1785);
   (1984, 1993); (2406, 2415); (2534, 2543); (2662, 2671); (2790, 2799);
   (2918, 2927); (3046, 3055); (3174, 3183); (3302, 3311); (3430, 3439);
   (3558, 3567); (3664, 3673); (3792, 3801); (3872, 3881); (4160, 4169);
   (4240, 4249); (4969, 4977); (6112, 6121); (6160, 6169); (6470, 6479);
   (6608, 6618); (6784, 6793); (6800, 6809); (6992, 7001); (7088, 7097);
   (7232, 7241); (7248, 7257); (8304, 8304); (8308, 8313); (8320, 8329);
   (9312, 9320); (9332, 9340); (9352, 9360); (9450, 9450); (9461, 9469);
   (9471, 9471); (10102, 10110); (10112, 10120); (10122, 10130);
   (42528, 42537); (43216, 43225); (43264, 43273); (43472, 43481);
   (43504, 43513); (43600, 43609); (44016, 44025); (65296, 65305);
   (66720, 66729); (68160, 68163); (68912, 68921); (69216, 69224);
   (69714, 69722); (69734, 69743); (69872, 69881); (69942, 69951);
   (70096, 70105); (70384, 70393); (70736, 70745); (70864, 70873);
   (71248, 71257); (71360, 71369); (71472, 71481); (71904, 71913);
   (72016, 72025); (72784, 72793); (73040, 73049); (73120, 73129);
   (92768, 92777); (92864, 92873); (93008, 93017); (120782, 120831);
   (123200, 123209); (123632, 123641); (125264, 125273); (127232, 127242);
   (130032, 130041)]%N.

Definition py_isdigit (c : pychar) : bool := in_ranges digit_ranges c.

Definition space : pychar := 32%N.
Definition star : pychar := 42%N.

(** [str.strip()] with no argument. *)
Fixpoint lstrip (s : pystr) : pystr :=
  match s with
  | c :: r => if py_isspace c then lstrip r else s
  | [] => []
  end.

Definition py_strip (s : pystr) : pystr := rev (lstrip (rev (lstrip s))).

(** Splitting at every character satisfying [is_sep], keeping the empty
    pieces: [str.split(sep)] for a one-character [sep] is
    [split_by (N.eqb sep)]. *)
Fixpoint split_by (is_sep : pychar -> bool) (s : pystr) : list pystr :=
  match s with
  | [] => [[]]
  | c :: r =>
      let parts := split_by is_sep r in
      if is_sep c then [] :: parts
      else match parts with
           | p :: ps => (c :: p) :: ps
           | [] => [[c]]
           end
  end.

Definition py_split_sep (sep : pychar) (s : pystr) : list pystr :=
  split_by (N.eqb sep) s.

Definition nonempty (p : pystr) : bool :=
  match p with [] => false | _ => true end.

(** [sep.join(xs)]. *)
Fixpoint py_join (sep : pystr) (xs : list pystr) : pystr :=
  match xs with
  | [] => []
  | [x] => x
  | x :: xs' => x ++ sep ++ py_join sep xs'
  end.

(** ** [mask_name]

    The body of the [try] block; [None] is an exception raised inside it
    ([p[0]] on an empty token would raise [IndexError]). *)
Definition mask_part (p : pystr) : option pystr :=
  match p with
  | [] => None
  | c :: _ =>
      if (List.length p <=? 2)%nat then Some (c :: lit "*")
      else Some (c :: lit "***")
  end.

Fixpoint mask_parts (ps : list pystr) : option (list pystr) :=
  match ps with
  | [] => Some []
  | p :: ps' =>
      match mask_part p, mask_parts ps' with
      | Some m, Some ms => Some (m :: ms)
      | _, _ => None
      end
  end.

Definition mask_name_try (name : pystr) : option pystr :=
  let parts := filter nonempty (py_split_sep space (py_strip name)) in
  match parts with
  | [] => Some (lit "Customer")
  | _ =>
      match mask_parts parts with
      | Some masked_parts => Some (py_join (lit " ") masked_parts)
      | None => None
      end
  end.

(** [except Exception: return "Customer"]. *)
Definition mask_name (name : pystr) : pystr :=
  match mask_name_try name with
  | Some r => r
  | None => lit "Customer"
  end.

(** ** [mask_phone] *)
Definition mask_phone (phone : pystr) : pystr :=
  let digits := filter py_isdigit phone in
  if (List.length digits <? 4)%nat then lit "***"
  else
    let last4 := skipn (List.length digits - 4) digits in
    lit "***-***-" ++ last4.

(** ** Reference readings of the masking rule

    [scan_words is_sep] reads a string left to right and collects the
    maximal runs of characters that are not separators.  With
    [is_sep := py_isspace] it gives the tokens of [str.split()] ("split on
    whitespace into non-empty tokens", as the spec words it); with
    [is_sep := N.eqb space] the runs between space characters. *)
Fixpoint scan_words (is_sep : pychar -> bool) (cur : pystr) (s : pystr)
  : list pystr :=
  match s with
  | [] => match cur with [] => [] | _ => [rev cur] end
  | c :: r =>
      if is_sep c then
        match cur with
        | [] => scan_words is_sep [] r
        | _ => rev cur :: scan_words is_sep [] r
        end
      else scan_words is_sep (c :: cur) r
  end.

Definition words (is_sep : pychar -> bool) (s : pystr) : list pystr :=
  scan_words is_sep [] s.

(** First character followed by one star (length <= 2) or three. *)
Definition mask_token (t : pystr) : pystr :=
  match t with
  | [] => []
  | c :: _ =>
      if (List.length t <=? 2)%nat then c :: lit "*" else c :: lit "***"
  end.

Definition render_masked (toks : list pystr) : pystr :=
  match toks with
  | [] => lit "Customer"
  | _ => py_join (lit " ") (map mask_token toks)
  end.

(** The masking rule as the spec states it: tokens are the whitespace
    separated words of the whole input. *)
Definition mask_name_spec (name : pystr) : pystr :=
  render_masked (words py_isspace name).

(** The masking rule with the tokenisation the source performs: strip
    surrounding whitespace, then cut at space characters only. *)
Definition mask_name_spaces (name : pystr) : pystr :=
  render_masked (words (N.eqb space) (py_strip name)).

End PyStr.

Module Booking.
Import PyStr.
Local Open Scope Z_scope.

Fixpoint pystr_eqb (a b : pystr) : bool :=
  match a, b with
  | [], [] => true
  | x :: a', y :: b' => N.eqb x y && pystr_eqb a' b'
  | _, _ => false
  end.

Definition option_eqb {A} (eqb : A -> A -> bool) (x y : option A) : bool :=
  match x, y with
  | Some a, Some b => eqb a b
  | None, None => true
  | _, _ => false
  end.

(** ** Instants

    A [datetime] reaches MongoDB as a BSON date with millisecond precision,
    so an instant is counted in milliseconds from [datetime.min]
    (0001-01-01T00:00); [datetime_max] is 9999-12-31T23:59:59.999.
    Truncating to milliseconds commutes with adding whole minutes, so the
    query bounds and the stored [end_time] are those computed here. *)
Definition instant := Z.
Definition ms_per_minute : Z := 60000.
Definition datetime_max : instant := 3652059 * 86400000 - 1.

Definition valid_instant (t : instant) : Prop := 0 <= t <= datetime_max.

(** [start + timedelta(minutes=m)]: [OverflowError] (here [None]) when the
    result leaves the [datetime] range. *)
Definition add_minutes (t : instant) (m : Z) : option instant :=
  let r := t + m * ms_per_minute in
  if (0 <=? r) && (r <=? datetime_max) then Some r else None.

(** ** Documents of the [appointment] collection

    The fields written by [create_appointment] ([body.model_dump()] plus
    [end_time] and [status]) and the [updated_at] field written by
    [cancel_appointment] ([None]: the field is absent).  A stored document
    is a pair of its [_id] and these fields. *)
Record appointment := {
  customer_name : pystr;
  customer_phone : pystr;
  barber_id : pystr;
  service_name : pystr;
  start_time : instant;
  end_time : instant;
  duration_min : Z;
  notes : option pystr;
  status : pystr;
  updated_at : option instant
}.

Definition object_id := N.
Definition document := (object_id * appointment)%type.

Definition appointment_eqb (a b : appointment) : bool :=
  pystr_eqb a.(customer_name) b.(customer_name)
  && pystr_eqb a.(customer_phone) b.(customer_phone)
  && pystr_eqb a.(barber_id) b.(barber_id)
  && pystr_eqb a.(service_name) b.(service_name)
  && Z.eqb a.(start_time) b.(start_time)
  && Z.eqb a.(end_time) b.(end_time)
  && Z.eqb a.(duration_min) b.(duration_min)
  && option_eqb pystr_eqb a.(notes) b.(notes)
  && pystr_eqb a.(status) b.(status)
  && option_eqb Z.eqb a.(updated_at) b.(updated_at).

(** Request body of [POST /api/appointments] ([class AppointmentIn]):
    pydantic only checks the field types; [duration_min: int] has no
    bounds. *)
Record AppointmentIn := {
  in_customer_name : pystr;
  in_customer_phone : pystr;
  in_barber_id : pystr;
  in_service_name : pystr;
  in_start_time : instant;
  in_duration_min : Z;
  in_notes : option pystr
}.

(** [schemas.Appointment]: the declared shape of a stored appointment,
    with [duration_min: int = Field(..., ge=5, le=240)]. *)
Definition Appointment_schema_valid (a : appointment) : bool :=
  (5 <=? a.(duration_min)) && (a.(duration_min) <=? 240).

(** ** Store and effects

    The [appointment] collection in natural (insertion) order and the
    counter from which the next [ObjectId] is drawn. *)
Record store := {
  appointments : list document;
  next_oid : object_id
}.

Inductive error :=
| HTTPException (status_code : Z) (detail : pystr)
| OverflowError.

Inductive result (A : Type) :=
| Ok (a : A)
| Err (e : error).
Arguments Ok {A} a.
Arguments Err {A} e.

Definition M (A : Type) := store -> result A * store.

Definition ret {A} (a : A) : M A := fun st => (Ok a, st).
Definition raise {A} (e : error) : M A := fun st => (Err e, st).
Definition bind {A B} (m : M A) (k : A -> M B) : M B :=
  fun st =>
    match m st with
    | (Ok a, st') => k a st'
    | (Err e, st') => (Err e, st')
    end.

Notation "x <- m ;; k" := (bind m (fun x => k))
  (at level 61, m at next level, right associativity).

Definition slot_unavailable : error :=
  HTTPException 400 (lit "Time slot not available").
Definition appointment_not_found : error :=
  HTTPException 404 (lit "Appointment not found").

Definition timedelta_add (t : instant) (m : Z) : M instant :=
  match add_minutes t m with
  | Some r => ret r
  | None => raise OverflowError
  end.

(** [db["appointment"].find_one(filter)]: the first match in natural order. *)
Definition find_one (filter : document -> bool) : M (option document) :=
  fun st => (Ok (find filter st.(appointments)), st).

(** Replace the first document matching [filter] by [f] of it. *)
Fixpoint update_first (filter : document -> bool) (f : appointment -> appointment)
    (ds : list document) : option (appointment * list document) :=
  match ds with
  | [] => None
  | (oid, a) :: ds' =>
      if filter (oid, a) then Some (a, (oid, f a) :: ds')
      else match update_first filter f ds' with
           | Some (old, ds'') => Some (old, (oid, a) :: ds'')
           | None => None
           end
  end.

(** [update_one(filter, {"$set": ...})], returning [modified_count]: a
    document whose fields already hold the [$set] values is matched but
    not modified. *)
Definition update_one (filter : document -> bool) (f : appointment -> appointment)
  : M Z :=
  fun st =>
    match update_first filter f st.(appointments) with
    | None => (Ok 0, st)
    | Some (old, ds') =>
        if appointment_eqb (f old) old then (Ok 0, st)
        else (Ok 1, {| appointments := ds'; next_oid := st.(next_oid) |})
    end.

(** Modelled from the spec: [database.create_document], absent from the
    sources ("create(collection, document) -> id" of the document store
    adapter): insert the document under a fresh [ObjectId] and return it. *)
Definition create_document (data : appointment) : M object_id :=
  fun st =>
    (Ok st.(next_oid),
     {| appointments := st.(appointments) ++ [(st.(next_oid), data)];
        next_oid := N.succ st.(next_oid) |}).

Definition by_id (oid : object_id) (d : document) : bool := N.eqb (fst d) oid.

(** The filter shared by [check_availability] and [create_appointment]:
    [{"barber_id": b, "status": {"$ne": "canceled"},
      "$or": [{"start_time": {"$lt": end}, "end_time": {"$gt": start}}]}]. *)
Definition overlap_filter (b : pystr) (start end_ : instant) (d : document)
  : bool :=
  let a := snd d in
  pystr_eqb a.(barber_id) b
  && negb (pystr_eqb a.(status) (lit "canceled"))
  && ((a.(start_time) <? end_) && (start <? a.(end_time))).

(** ** Handlers *)

(** [GET /api/appointments/check]: [{"available": conflict is None}]. *)
Definition check_availability (barber_id_ : pystr) (start_time_ : instant)
    (duration_min_ : Z) : M bool :=
  let start := start_time_ in
  end_ <- timedelta_add start duration_min_ ;;
  conflict <- find_one (overlap_filter barber_id_ start end_) ;;
  ret (match conflict with None => true | Some _ => false end).

(** [POST /api/appointments]; the result is [serialize(doc)] of the re-read
    document. *)
Definition create_appointment (body : AppointmentIn) : M (option document) :=
  let start := body.(in_start_time) in
  end_ <- timedelta_add start body.(in_duration_min) ;;
  conflict <- find_one (overlap_filter body.(in_barber_id) start end_) ;;
  match conflict with
  | Some _ => raise slot_unavailable
  | None =>
      let data := {|
        customer_name := body.(in_customer_name);
        customer_phone := body.(in_customer_phone);
        barber_id := body.(in_barber_id);
        service_name := body.(in_service_name);
        start_time := body.(in_start_time);
        end_time := end_;
        duration_min := body.(in_duration_min);
        notes := body.(in_notes);
        status := lit "booked";
        updated_at := None |} in
      _id <- create_document data ;;
      find_one (by_id _id)
  end.

(** [{"$set": {"status": "canceled", "updated_at": now}}]. *)
Definition set_canceled (now : instant) (a : appointment) : appointment :=
  {| customer_name := a.(customer_name);
     customer_phone := a.(customer_phone);
     barber_id := a.(barber_id);
     service_name := a.(service_name);
     start_time := a.(start_time);
     end_time := a.(end_time);
     duration_min := a.(duration_min);
     notes := a.(notes);
     status := lit "canceled";
     updated_at := Some now |}.

(** [PATCH /api/appointments/{appointment_id}/cancel], for the [ObjectId]
    [oid] parsed from the path; [now] is [datetime.utcnow()] as stored
    (millisecond precision). *)
Definition cancel_appointment (oid : object_id) (now : instant)
  : M (option document) :=
  res <- update_one (by_id oid) (set_canceled now) ;;
  if Z.eqb res 0 then raise appointment_not_found
  else find_one (by_id oid).

(** The stored-interval invariant of the data model: [end_time] is
    [start_time + duration_min] minutes. *)
Definition end_consistent (d : document) : Prop :=
  (snd d).(end_time)
  = (snd d).(start_time) + (snd d).(duration_min) * ms_per_minute.

End Booking.

(** * Catalog collections and the startup seed *)
Module Catalog.
Import PyStr Booking.
Local Open Scope Z_scope.

(** A Python [float] as a BSON double: a finite value (a dyadic rational),
    an infinity, or NaN.  The code only stores and assigns prices. *)
Inductive py_float :=
| FloatFinite (q : QArith_base.Q)
| FloatInf (negative : bool)
| FloatNaN.

Definition float_of_Z (z : Z) : py_float := FloatFinite (QArith_base.inject_Z z).

(** Documents of the [barber] collection ([{"name", "bio"}] from the seed,
    [BarberIn.model_dump()] from [add_barber]; [None] is an absent or null
    field). *)
Record Barber := {
  b_name : pystr;
  b_avatar_url : option pystr;
  b_bio : option pystr
}.

(** Documents of the [service] collection. *)
Record Service := {
  s_name : pystr;
  s_description : option pystr;
  s_duration_min : Z;
  s_price : py_float
}.

(** [BarberIn] and [ServiceIn]: pydantic checks the field types only. *)
Record BarberIn := {
  bin_name : pystr;
  bin_avatar_url : option pystr;
  bin_bio : option pystr
}.

Record ServiceIn := {
  sin_name : pystr;
  sin_description : option pystr;
  sin_duration_min : Z;
  sin_price : py_float
}.

(** [schemas.Service]: [duration_min] in [5, 240], [price >= 0]. *)
Definition Service_schema_valid (s : Service) : bool :=
  (5 <=? s.(s_duration_min)) && (s.(s_duration_min) <=? 240)
  && match s.(s_price) with
     | FloatFinite q => QArith_base.Qle_bool (QArith_base.inject_Z 0) q
     | FloatInf neg => negb neg
     | FloatNaN => false
     end.

Record catalog := {
  barber_coll : list (object_id * Barber);
  service_coll : list (object_id * Service);
  catalog_next_oid : object_id
}.

(** Modelled from the spec: [database.create_document] for the [barber]
    and [service] collections, an insert under a fresh [ObjectId]. *)
Definition insert_barber (b : Barber) (c : catalog) : object_id * catalog :=
  (c.(catalog_next_oid),
   {| barber_coll := c.(barber_coll) ++ [(c.(catalog_next_oid), b)];
      service_coll := c.(service_coll);
      catalog_next_oid := N.succ c.(catalog_next_oid) |}).

Definition insert_service (s : Service) (c : catalog) : object_id * catalog :=
  (c.(catalog_next_oid),
   {| barber_coll := c.(barber_coll);
      service_coll := c.(service_coll) ++ [(c.(catalog_next_oid), s)];
      catalog_next_oid := N.succ c.(catalog_next_oid) |}).

Definition named_barber (name : pystr) (d : object_id * Barber) : bool :=
  pystr_eqb (snd d).(b_name) name.
Definition named_service (name : pystr) (d : object_id * Service) : bool :=
  pystr_eqb (snd d).(s_name) name.

(** ** [seed_defaults] *)

Definition default_barber_names : list pystr :=
  [lit "John Fade"; lit "Lisa Shear"; lit "Mike Lineup"].

Definition haircut_price : py_float := float_of_Z 18.

Definition default_services : list Service :=
  [ {| s_name := lit "Haircut"; s_description := None;
       s_duration_min := 30; s_price := haircut_price |};
    {| s_name := lit "Beard Trim"; s_description := None;
       s_duration_min := 15; s_price := float_of_Z 15 |};
    {| s_name := lit "Haircut + Beard"; s_description := None;
       s_duration_min := 45; s_price := float_of_Z 35 |} ].

(** [if db["barber"].count_documents({"name": name}) == 0:
       create_document("barber", {"name": name, "bio": "Pro barber"})]. *)
Definition seed_barber (c : catalog) (name : pystr) : catalog :=
  if Nat.eqb (List.length (filter (named_barber name) c.(barber_coll))) 0
  then snd (insert_barber {| b_name := name; b_avatar_url := None;
                             b_bio := Some (lit "Pro barber") |} c)
  else c.

(** [{"$set": {"price": 18.0, "duration_min": s["duration_min"]}}]. *)
Definition set_price_duration (dur : Z) (x : Service) : Service :=
  {| s_name := x.(s_name); s_description := x.(s_description);
     s_duration_min := dur; s_price := haircut_price |}.

(** Update the first document with the given [_id]. *)
Fixpoint update_service_by_id (oid : object_id) (f : Service -> Service)
    (ds : list (object_id * Service)) : list (object_id * Service) :=
  match ds with
  | [] => []
  | (o, x) :: ds' =>
      if N.eqb o oid then (o, f x) :: ds'
      else (o, x) :: update_service_by_id oid f ds'
  end.

Definition seed_service (c : catalog) (s : Service) : catalog :=
  match find (named_service s.(s_name)) c.(service_coll) with
  | None => snd (insert_service s c)
  | Some (oid, _) =>
      if pystr_eqb s.(s_name) (lit "Haircut") then
        {| barber_coll := c.(barber_coll);
           service_coll :=
             update_service_by_id oid (set_price_duration s.(s_duration_min))
               c.(service_coll);
           catalog_next_oid := c.(catalog_next_oid) |}
      else c
  end.

Definition seed_defaults (c : catalog) : catalog :=
  fold_left seed_service default_services
    (fold_left seed_barber default_barber_names c).

(** ** Catalog endpoints *)

(** Modelled from the spec: [database.get_documents] ([find_many]) with an
    empty filter: every document in natural order. *)
Definition list_barbers (c : catalog) : list (object_id * Barber) :=
  c.(barber_coll).
Definition list_services (c : catalog) : list (object_id * Service) :=
  c.(service_coll).

Definition add_barber (body : BarberIn) (c : catalog)
  : option (object_id * Barber) * catalog :=
  let '(oid, c') := insert_barber {| b_name := body.(bin_name);
                                     b_avatar_url := body.(bin_avatar_url);
                                     b_bio := body.(bin_bio) |} c in
  (find (fun d => N.eqb (fst d) oid) c'.(barber_coll), c').

Definition add_service (body : ServiceIn) (c : catalog)
  : option (object_id * Service) * catalog :=
  let '(oid, c') := insert_service {| s_name := body.(sin_name);
                                      s_description := body.(sin_description);
                                      s_duration_min := body.(sin_duration_min);
                                      s_price := body.(sin_price) |} c in
  (find (fun d => N.eqb (fst d) oid) c'.(service_coll), c').

Definition catalog_ids_fresh (c : catalog) : Prop :=
  Forall (fun d => (fst d < c.(catalog_next_oid))%N) c.(barber_coll)
  /\ Forall (fun d => (fst d < c.(catalog_next_oid))%N) c.(service_coll).

End Catalog.

(** * The public appointment listing *)
Module Listing.
Import PyStr Booking.

(** The loop body of [list_appointments]: mask name and phone, blank the
    notes. *)
Definition sanitize (d : document) : document :=
  let a := snd d in
  (fst d,
   {| customer_name := mask_name a.(customer_name);
      customer_phone := mask_phone a.(customer_phone);
      barber_id := a.(barber_id);
      service_name := a.(service_name);
      start_time := a.(start_time);
      end_time := a.(end_time);
      duration_min := a.(duration_min);
      notes := None;
      status := a.(status);
      updated_at := a.(updated_at) |}).

(** [GET /api/appointments?barber_id=]: [q = {"barber_id": barber_id} if
    barber_id else {}]; a missing or empty [barber_id] is falsy. *)
Definition list_appointments (barber_id_ : option pystr) : M (list document) :=
  fun st =>
    let items :=
      match barber_id_ with
      | Some b =>
          if nonempty b
          then filter (fun d => pystr_eqb (snd d).(barber_id) b)
                 st.(appointments)
          else st.(appointments)
      | None => st.(appointments)
      end in
    (Ok (map sanitize items), st).

(** Stored [_id]s below the store's counter, as [create_document] keeps
    them. *)
Definition ids_fresh (st : store) : Prop :=
  Forall (fun d => (fst d < st.(next_oid))%N) st.(appointments).

End Listing.

(** * Sample data: barber "B" with the appointment [10:00, 10:30) of the
    spec's example (instants counted from midnight of day one). *)
Module Samples.
Import PyStr Booking.
Local Open Scope Z_scope.

Definition at_minute (m : Z) : instant := m * ms_per_minute.

Definition sample_booked : appointment := {|
  customer_name := lit "Jo Smith";
  customer_phone := lit "555-123-4567";
  barber_id := lit "B";
  service_name := lit "Haircut";
  start_time := at_minute 600;
  end_time := at_minute 630;
  duration_min := 30;
  notes := None;
  status := lit "booked";
  updated_at := None |}.

Definition empty_store : store := {| appointments := []; next_oid := 0%N |}.

Definition sample_store : store :=
  {| appointments := [(0%N, sample_booked)]; next_oid := 1%N |}.

Definition sample_request (start : instant) (dur : Z) : AppointmentIn := {|
  in_customer_name := lit "Ann Lee";
  in_customer_phone := lit "555-987-6543";
  in_barber_id := lit "B";
  in_service_name := lit "Beard Trim";
  in_start_time := start;
  in_duration_min := dur;
  in_notes := None |}.

End Samples.

(** * Proofs about the booking handlers *)
Module BookingFacts.
Import PyStr Booking Samples.
Local Open Scope Z_scope.

(** ** Equality tests *)

Lemma pystr_eqb_eq (a b : pystr) : pystr_eqb a b = true <-> a = b.
Proof.
  revert b; induction a as [|x a IH]; intros [|y b]; simpl;
    try (split; congruence).
  rewrite andb_true_iff, N.eqb_eq, IH. split.
  - intros [-> ->]; reflexivity.
  - intros H; inversion H; auto.
Qed.

Lemma option_eqb_eq {A} (eqb : A -> A -> bool)
    (Heqb : forall a b, eqb a b = true <-> a = b) (x y : option A) :
  option_eqb eqb x y = true <-> x = y.
Proof.
  destruct x, y; simpl; try (split; congruence).
  rewrite Heqb. split; congruence.
Qed.

Lemma appointment_eqb_eq (a b : appointment) :
  appointment_eqb a b = true <-> a = b.
Proof.
  destruct a, b; unfold appointment_eqb; simpl.
  rewrite !andb_true_iff, !pystr_eqb_eq, !Z.eqb_eq,
    !(option_eqb_eq _ pystr_eqb_eq), !(option_eqb_eq _ Z.eqb_eq).
  split.
  - intros [[[[[[[[[? ?] ?] ?] ?] ?] ?] ?] ?] ?]; subst; reflexivity.
  - intros H; inversion H; subst; tauto.
Qed.

Lemma set_canceled_unchanged (now : instant) (a : appointment) :
  set_canceled now a = a <->
  a.(status) = lit "canceled" /\ a.(updated_at) = Some now.
Proof.
  destruct a; unfold set_canceled; simpl. split.
  - intros H; inversion H; auto.
  - intros [-> ->]; reflexivity.
Qed.

(** ** The overlap filter *)

Lemma overlap_filter_true (b : pystr) (s e : instant) (d : document) :
  overlap_filter b s e d = true <->
  (snd d).(barber_id) = b /\ (snd d).(status) <> lit "canceled"
  /\ (snd d).(start_time) < e /\ (snd d).(end_time) > s.
Proof.
  unfold overlap_filter.
  rewrite !andb_true_iff, negb_true_iff, pystr_eqb_eq, !Z.ltb_lt.
  rewrite <- not_true_iff_false, pystr_eqb_eq, Z.gt_lt_iff. tauto.
Qed.

Lemma find_some_of_in {A} (f : A -> bool) (l : list A) (x : A) :
  In x l -> f x = true -> exists y, find f l = Some y.
Proof.
  intros Hin Hx. destruct (find f l) as [y|] eqn:E; [eauto|].
  rewrite (find_none f l E x Hin) in Hx. discriminate.
Qed.

Lemma find_none_iff {A} (f : A -> bool) (l : list A) :
  find f l = None <-> (forall x, In x l -> f x = false).
Proof.
  split; [apply find_none|].
  intros H. destruct (find f l) as [y|] eqn:E; [|reflexivity].
  destruct (find_some f l E) as [Hin Hy]. rewrite (H y Hin) in Hy.
  discriminate.
Qed.

Lemma add_minutes_some (s d : Z) :
  0 <= s + d * ms_per_minute <= datetime_max ->
  add_minutes s d = Some (s + d * ms_per_minute).
Proof.
  intros [H1 H2]. unfold add_minutes.
  apply Z.leb_le in H1. apply Z.leb_le in H2. rewrite H1, H2. reflexivity.
Qed.

Lemma add_minutes_none (s d : Z) :
  s + d * ms_per_minute < 0 -> add_minutes s d = None.
Proof.
  intros H. unfold add_minutes.
  destruct (Z.leb_spec 0 (s + d * ms_per_minute)); [lia|reflexivity].
Qed.

(** [check_availability] never writes, and answers from the first match
    of the overlap filter. *)
Lemma check_availability_eq (st : store) (b : pystr) (s d : Z) :
  check_availability b s d st =
  (match add_minutes s d with
   | Some e =>
       Ok (match find (overlap_filter b s e) st.(appointments) with
           | None => true
           | Some _ => false
           end)
   | None => Err OverflowError
   end, st).
Proof.
  unfold check_availability, timedelta_add, bind, find_one, ret, raise.
  destruct (add_minutes s d); reflexivity.
Qed.

Lemma check_availability_false_iff (st : store) (b : pystr) (s e : Z) :
  (match find (overlap_filter b s e) st.(appointments) with
   | None => true
   | Some _ => false
   end) = false <->
  exists doc, In doc st.(appointments) /\ (snd doc).(barber_id) = b
    /\ (snd doc).(status) <> lit "canceled"
    /\ (snd doc).(start_time) < e /\ (snd doc).(end_time) > s.
Proof.
  split.
  - destruct (find _ _) as [y|] eqn:E; [|discriminate]. intros _.
    destruct (find_some _ _ E) as [Hin Hy].
    apply overlap_filter_true in Hy. exists y. tauto.
  - intros (doc & Hin & Hdoc).
    apply overlap_filter_true in Hdoc.
    destruct (find_some_of_in _ _ _ Hin Hdoc) as [y ->]. reflexivity.
Qed.

(** ** C1: the availability check is the half-open overlap test *)

(** C1. When [end = start + duration_min] minutes is a representable
    instant, [check_availability] writes nothing and answers
    [available = true] exactly when no stored appointment of that barber
    with status other than "canceled" has [start_time < end] and
    [end_time > start]; an appointment ending exactly at [start] never
    counts as a conflict. *)
Theorem check_availability_half_open (st : store) (b : pystr) (s d : Z)
    (Hend : 0 <= s + d * ms_per_minute <= datetime_max) :
  let e := s + d * ms_per_minute in
  snd (check_availability b s d st) = st
  /\ (fst (check_availability b s d st) = Ok true
      <-> ~ exists doc, In doc st.(appointments)
             /\ (snd doc).(barber_id) = b
             /\ (snd doc).(status) <> lit "canceled"
             /\ (snd doc).(start_time) < e /\ (snd doc).(end_time) > s)
  /\ (fst (check_availability b s d st) = Ok true
      \/ fst (check_availability b s d st) = Ok false)
  /\ (forall doc, (snd doc).(end_time) = s -> overlap_filter b s e doc = false).
Proof.
  intros e. rewrite check_availability_eq, (add_minutes_some _ _ Hend).
  fold e. simpl. split; [reflexivity|]. split; [|split].
  - rewrite <- check_availability_false_iff.
    destruct (match find _ _ with None => true | Some _ => false end);
      split; congruence.
  - destruct (match find _ _ with None => true | Some _ => false end); auto.
  - intros doc Hs. destruct (overlap_filter b s e doc) eqn:E; [|reflexivity].
    apply overlap_filter_true in E. lia.
Qed.

Lemma check_availability_half_open_witness :
  fst (check_availability (lit "B") (at_minute 630) 15 sample_store) = Ok true.
Proof.
  destruct (check_availability_half_open sample_store (lit "B")
              (at_minute 630) 15) as (_ & Hiff & _);
    [unfold at_minute, ms_per_minute, datetime_max; lia|].
  apply Hiff. intros (doc & Hin & _ & _ & _ & Hgt).
  destruct Hin as [<-|[]]. simpl in Hgt. unfold at_minute in Hgt. lia.
Defined.

(** ** C2: check and create agree *)

(** C2. For every store and request, [check_availability] with the
    request's barber, start and duration answers [available = false]
    exactly when [create_appointment] fails with [SlotUnavailable]. *)
Theorem check_create_consistent (body : AppointmentIn) (st : store) :
  fst (check_availability body.(in_barber_id) body.(in_start_time)
         body.(in_duration_min) st) = Ok false
  <-> fst (create_appointment body st) = Err slot_unavailable.
Proof.
  rewrite check_availability_eq.
  unfold create_appointment, timedelta_add, bind, find_one, raise, ret,
    create_document.
  destruct (add_minutes _ _) as [e|]; simpl.
  - destruct (find _ _); simpl; split; congruence.
  - split; intros H; inversion H.
Qed.

(** ** C3: a conflicting create raises and writes nothing *)

(** C3. When a stored appointment of the requested barber, not canceled,
    overlaps the requested interval, [create_appointment] raises
    [HTTPException(400, "Time slot not available")] and leaves the store
    exactly as it was. *)
Theorem create_conflict_no_write (body : AppointmentIn) (st : store)
    (doc : document)
    (Hend : 0 <= body.(in_start_time) + body.(in_duration_min) * ms_per_minute
              <= datetime_max)
    (Hin : In doc st.(appointments))
    (Hconf : overlap_filter body.(in_barber_id) body.(in_start_time)
               (body.(in_start_time) + body.(in_duration_min) * ms_per_minute)
               doc = true) :
  create_appointment body st
  = (Err (HTTPException 400 (lit "Time slot not available")), st).
Proof.
  unfold create_appointment, timedelta_add, bind, find_one, raise.
  rewrite (add_minutes_some _ _ Hend).
  destruct (find_some_of_in _ _ _ Hin Hconf) as [y Hy].
  unfold ret. simpl. rewrite Hy. reflexivity.
Qed.

Lemma create_conflict_no_write_witness :
  create_appointment (sample_request (at_minute 615) 15) sample_store
  = (Err (HTTPException 400 (lit "Time slot not available")), sample_store).
Proof.
  apply (create_conflict_no_write _ _ (0%N, sample_booked));
    [unfold at_minute, ms_per_minute, datetime_max; simpl; lia
    | left; reflexivity
    | vm_compute; reflexivity].
Defined.

(** ** C4: the [end_time] invariant *)

Lemma add_minutes_some_inv (s d e : Z) :
  add_minutes s d = Some e -> e = s + d * ms_per_minute.
Proof.
  unfold add_minutes. destruct (_ && _); congruence.
Qed.

Lemma Forall2_refl_on {A} (R : A -> A -> Prop) (l : list A) :
  (forall x, R x x) -> Forall2 R l l.
Proof. intros HR; induction l; constructor; auto. Qed.

Lemma Forall_transport {A} (P : A -> Prop) (R : A -> A -> Prop)
    (l l' : list A) :
  (forall x y, P x -> R x y -> P y) -> Forall P l -> Forall2 R l l' ->
  Forall P l'.
Proof.
  intros HP Hl H2. induction H2; inversion Hl; subst; constructor; eauto.
Qed.

Definition cancel_step (now : instant) (d d' : document) : Prop :=
  fst d' = fst d /\ (snd d' = snd d \/ snd d' = set_canceled now (snd d)).

Lemma update_first_rel (now : instant) (p : document -> bool)
    (ds ds' : list document) (old : appointment) :
  update_first p (set_canceled now) ds = Some (old, ds') ->
  Forall2 (cancel_step now) ds ds'.
Proof.
  revert ds'; induction ds as [|[oid a] ds IH]; intros ds' H; simpl in H;
    [discriminate|].
  destruct (p (oid, a)).
  - inversion H; subst. constructor.
    + unfold cancel_step; simpl; auto.
    + apply Forall2_refl_on. intros x; unfold cancel_step; auto.
  - destruct (update_first p _ ds) as [[o ds'']|] eqn:E; [|discriminate].
    inversion H; subst. constructor.
    + unfold cancel_step; simpl; auto.
    + eapply IH; eauto.
Qed.

(** Every store change made by [cancel_appointment]. *)
Lemma cancel_appointment_store (oid : object_id) (now : instant) (st : store) :
  Forall2 (cancel_step now) st.(appointments)
    (snd (cancel_appointment oid now st)).(appointments).
Proof.
  unfold cancel_appointment, update_one, bind, find_one, raise.
  destruct (update_first _ _ _) as [[old ds']|] eqn:E.
  - destruct (appointment_eqb _ _); simpl.
    + apply Forall2_refl_on. intros x; unfold cancel_step; auto.
    + apply (update_first_rel now _ _ _ old E).
  - simpl. apply Forall2_refl_on. intros x; unfold cancel_step; auto.
Qed.

(** Every store change made by [create_appointment]. *)
Lemma create_appointment_store (body : AppointmentIn) (st : store) :
  (snd (create_appointment body st)).(appointments) = st.(appointments)
  \/ exists oid a,
       (snd (create_appointment body st)).(appointments)
         = st.(appointments) ++ [(oid, a)]
       /\ a.(status) = lit "booked"
       /\ a.(start_time) = body.(in_start_time)
       /\ a.(duration_min) = body.(in_duration_min)
       /\ a.(end_time)
          = body.(in_start_time) + body.(in_duration_min) * ms_per_minute.
Proof.
  unfold create_appointment, timedelta_add, bind, find_one, raise, ret,
    create_document.
  destruct (add_minutes _ _) as [e|] eqn:E; simpl; [|auto].
  destruct (find _ _); simpl; [auto|].
  right. eexists _, _. split; [reflexivity|].
  simpl. repeat split; auto using add_minutes_some_inv.
Qed.

(** C4. Both writers keep [end_time = start_time + duration_min] minutes
    on every stored appointment: a successful create appends one document
    with [status = "booked"] and the computed [end_time]; cancel rewrites
    documents only through [set_canceled], which changes nothing but
    [status] and [updated_at]. *)
Theorem end_time_invariant (body : AppointmentIn) (oid : object_id)
    (now : instant) (st : store)
    (Hinv : Forall end_consistent st.(appointments)) :
  Forall end_consistent (snd (create_appointment body st)).(appointments)
  /\ Forall end_consistent (snd (cancel_appointment oid now st)).(appointments)
  /\ ((snd (create_appointment body st)).(appointments) = st.(appointments)
      \/ exists oid' a,
           (snd (create_appointment body st)).(appointments)
             = st.(appointments) ++ [(oid', a)]
           /\ a.(status) = lit "booked"
           /\ a.(start_time) = body.(in_start_time)
           /\ a.(duration_min) = body.(in_duration_min)
           /\ a.(end_time)
              = body.(in_start_time) + body.(in_duration_min) * ms_per_minute)
  /\ Forall2 (fun d d' =>
        fst d' = fst d
        /\ (snd d' = snd d \/ snd d' = set_canceled now (snd d)))
      st.(appointments) (snd (cancel_appointment oid now st)).(appointments)
  /\ (forall a, (set_canceled now a).(start_time) = a.(start_time)
        /\ (set_canceled now a).(end_time) = a.(end_time)
        /\ (set_canceled now a).(duration_min) = a.(duration_min)).
Proof.
  split; [|split; [|split; [|split]]].
  - destruct (create_appointment_store body st) as [->|(oid' & a & -> & _ & Hs & Hd & He)];
      [exact Hinv|].
    apply Forall_app; split; [exact Hinv|]. constructor; [|constructor].
    unfold end_consistent; simpl. rewrite He, Hs, Hd. reflexivity.
  - eapply Forall_transport; [|exact Hinv|apply cancel_appointment_store].
    intros x y Hx [_ [Hy|Hy]]; unfold end_consistent in *; rewrite Hy;
      [exact Hx|exact Hx].
  - apply create_appointment_store.
  - apply cancel_appointment_store.
  - intros a; repeat split.
Qed.

Lemma end_time_invariant_witness :
  Forall end_consistent
    (snd (create_appointment (sample_request (at_minute 540) 45) sample_store))
      .(appointments).
Proof.
  apply (end_time_invariant (sample_request (at_minute 540) 45) 0%N 0
           sample_store).
  constructor; [vm_compute; reflexivity|constructor].
Defined.

(** ** C5: non-positive durations *)

(** C5, as stated: a non-positive duration always yields
    [available = true].  Refuted by the spec's own appointment
    [10:00, 10:30): a zero-length check at 10:15 answers [false]. *)
Lemma nonpositive_duration_not_always_available :
  ~ (forall (st : store) (b : pystr) (s d : Z),
       valid_instant s -> d <= 0 ->
       fst (check_availability b s d st) = Ok true).
Proof.
  intros H.
  assert (Hc : fst (check_availability (lit "B") (at_minute 615) 0
                      sample_store) = Ok false) by (vm_compute; reflexivity).
  rewrite H in Hc;
    [discriminate
    | unfold valid_instant, at_minute, ms_per_minute, datetime_max; lia
    | lia].
Qed.

(** C5, amended. For [duration_min <= 0] and a valid start, the check
    writes nothing; it raises [OverflowError] only when
    [start + duration_min] falls before [datetime.min]; otherwise it
    evaluates the same inequality on the empty or inverted interval and
    answers [available = false] exactly when a non-canceled appointment of
    the barber has [start_time < start + duration_min] and
    [end_time > start], which requires that appointment to strictly
    straddle [start]. *)
Theorem check_nonpositive_duration (st : store) (b : pystr) (s d : Z)
    (Hs : valid_instant s) (Hd : d <= 0) :
  snd (check_availability b s d st) = st
  /\ (s + d * ms_per_minute < 0 ->
      fst (check_availability b s d st) = Err OverflowError)
  /\ (0 <= s + d * ms_per_minute ->
      (fst (check_availability b s d st) = Ok false
       <-> exists doc, In doc st.(appointments)
             /\ (snd doc).(barber_id) = b
             /\ (snd doc).(status) <> lit "canceled"
             /\ (snd doc).(start_time) < s + d * ms_per_minute
             /\ (snd doc).(end_time) > s)
      /\ (fst (check_availability b s d st) = Ok true
          \/ fst (check_availability b s d st) = Ok false))
  /\ (fst (check_availability b s d st) = Ok false ->
      exists doc, In doc st.(appointments)
        /\ (snd doc).(barber_id) = b
        /\ (snd doc).(status) <> lit "canceled"
        /\ (snd doc).(start_time) < s < (snd doc).(end_time)).
Proof.
  unfold valid_instant in Hs.
  assert (Hm : 0 < ms_per_minute) by (unfold ms_per_minute; lia).
  assert (Hle : s + d * ms_per_minute <= s) by nia.
  rewrite check_availability_eq.
  destruct (Z.ltb_spec (s + d * ms_per_minute) 0) as [Hneg|Hpos].
  - rewrite add_minutes_none by exact Hneg. simpl.
    split; [reflexivity|]. split; [reflexivity|].
    split; [intros; lia|]. discriminate.
  - rewrite add_minutes_some by lia.
    simpl. split; [reflexivity|]. split; [lia|].
    pose proof (check_availability_false_iff st b s (s + d * ms_per_minute))
      as Hf.
    split.
    + intros _. split.
      * rewrite <- Hf.
        split; [intros Hx; injection Hx; auto|intros ->; reflexivity].
      * destruct (match find _ _ with None => true | Some _ => false end);
          auto.
    + intros Hok. assert (Hx : forall x : bool, Ok x = Ok false -> x = false)
        by congruence.
      apply Hx, Hf in Hok.
      destruct Hok as (doc & Hin & Hb & Hst & Hlt & Hgt).
      exists doc. repeat split; auto; lia.
Qed.

Lemma check_nonpositive_duration_witness :
  fst (check_availability (lit "B") (at_minute 615) 0 sample_store) = Ok false
  /\ exists doc, In doc sample_store.(appointments)
       /\ (snd doc).(start_time) < at_minute 615 < (snd doc).(end_time).
Proof.
  assert (Hc : fst (check_availability (lit "B") (at_minute 615) 0
                      sample_store) = Ok false) by (vm_compute; reflexivity).
  split; [exact Hc|].
  destruct (check_nonpositive_duration sample_store (lit "B")
              (at_minute 615) 0) as (_ & _ & _ & H);
    [unfold valid_instant, at_minute, ms_per_minute, datetime_max; lia
    | lia |].
  destruct (H Hc) as (doc & Hin & _ & _ & Hlt).
  exists doc. split; assumption.
Defined.

(** ** C6 and C10: [cancel_appointment] and [modified_count] *)

Lemma update_first_find (p : document -> bool) (f : appointment -> appointment)
    (ds : list document) :
  match find p ds with
  | None => update_first p f ds = None
  | Some (_, a) => exists ds', update_first p f ds = Some (a, ds')
  end.
Proof.
  induction ds as [|[oid a] ds IH]; simpl; [reflexivity|].
  destruct (p (oid, a)); [eauto|].
  destruct (find p ds) as [[o b]|].
  - destruct IH as [ds' ->]. eauto.
  - rewrite IH. reflexivity.
Qed.

(** C6 at its failing input: the same appointment cancelled twice within
    one millisecond.  The first call succeeds; the second finds the
    document (it is still stored under [_id] 0) but [$set] changes no
    field, [modified_count] is 0, and the handler raises 404 "Appointment
    not found". *)
Lemma cancel_twice_same_instant :
  let st' := snd (cancel_appointment 0%N (at_minute 700) sample_store) in
  fst (cancel_appointment 0%N (at_minute 700) sample_store)
    <> Err appointment_not_found
  /\ In 0%N (map fst st'.(appointments))
  /\ cancel_appointment 0%N (at_minute 700) st'
     = (Err appointment_not_found, st').
Proof.
  split; [|split].
  - intros H. vm_compute in H. discriminate.
  - vm_compute. left. reflexivity.
  - vm_compute. reflexivity.
Qed.

(** C10. [cancel_appointment] raises NotFound exactly when no document has
    the given [_id], or when the first such document is already canceled
    with [updated_at] equal to the current instant (a repeated cancel in
    the same millisecond): then [modified_count] is 0 although the
    document exists. *)
Theorem cancel_not_found_iff (oid : object_id) (now : instant) (st : store) :
  fst (cancel_appointment oid now st) = Err appointment_not_found
  <-> find (by_id oid) st.(appointments) = None
      \/ exists o a, find (by_id oid) st.(appointments) = Some (o, a)
           /\ a.(status) = lit "canceled" /\ a.(updated_at) = Some now.
Proof.
  pose proof (update_first_find (by_id oid) (set_canceled now)
                st.(appointments)) as Hu.
  unfold cancel_appointment, update_one, bind, find_one, raise.
  destruct (find (by_id oid) st.(appointments)) as [[o a]|] eqn:Ef.
  - destruct Hu as [ds' ->].
    destruct (appointment_eqb (set_canceled now a) a) eqn:E; simpl.
    + apply appointment_eqb_eq, set_canceled_unchanged in E.
      split; [intros _; right; eauto|reflexivity].
    + split; [discriminate|].
      intros [H|(o' & a' & H & Hs & Hu)]; [discriminate|].
      inversion H; subst.
      assert (Heq : set_canceled now a' = a')
        by (apply set_canceled_unchanged; auto).
      apply appointment_eqb_eq in Heq. congruence.
  - rewrite Hu. simpl. split; auto.
Qed.

Lemma cancel_not_found_iff_witness :
  fst (cancel_appointment 0%N (at_minute 700)
         (snd (cancel_appointment 0%N (at_minute 700) sample_store)))
  = Err appointment_not_found.
Proof.
  apply cancel_not_found_iff. right.
  eexists _, _. split; [vm_compute; reflexivity|].
  split; vm_compute; reflexivity.
Defined.

(** ** C7: duration bounds on create *)

(** C7 at its failing input: [AppointmentIn.duration_min] is an unbounded
    [int], so whenever the slot is free and the end instant representable,
    [create_appointment] stores the document with the requested duration,
    whatever it is. *)
Theorem create_ignores_duration_bounds (body : AppointmentIn) (st : store)
    (Hend : 0 <= body.(in_start_time) + body.(in_duration_min) * ms_per_minute
              <= datetime_max)
    (Hfree : find (overlap_filter body.(in_barber_id) body.(in_start_time)
               (body.(in_start_time) + body.(in_duration_min) * ms_per_minute))
               st.(appointments) = None) :
  exists oid a,
    (snd (create_appointment body st)).(appointments)
      = st.(appointments) ++ [(oid, a)]
    /\ a.(duration_min) = body.(in_duration_min).
Proof.
  unfold create_appointment, timedelta_add, bind, find_one, ret,
    create_document.
  rewrite (add_minutes_some _ _ Hend). simpl. rewrite Hfree. simpl.
  eexists _, _. split; reflexivity.
Qed.

Lemma create_ignores_duration_bounds_witness :
  exists oid a,
    (snd (create_appointment (sample_request (at_minute 540) 300)
            empty_store)).(appointments) = [(oid, a)]
    /\ a.(duration_min) = 300 /\ Appointment_schema_valid a = false.
Proof.
  destruct (create_ignores_duration_bounds (sample_request (at_minute 540) 300)
              empty_store) as (oid & a & Happ & Hd);
    [unfold at_minute, ms_per_minute, datetime_max; simpl; lia
    | vm_compute; reflexivity |].
  exists oid, a. split; [exact Happ|]. split; [exact Hd|].
  unfold Appointment_schema_valid. rewrite Hd. reflexivity.
Defined.

End BookingFacts.

(** * Proofs about the privacy helpers *)
Module MaskFacts.
Import PyStr.

(** ** Tokenisation *)

Lemma split_by_not_nil (p : pychar -> bool) (s : pystr) : split_by p s <> [].
Proof.
  destruct s as [|c r]; simpl; [discriminate|].
  destruct (p c); [discriminate|]. destruct (split_by p r); discriminate.
Qed.

Lemma nonempty_rev_cons (c : pychar) (cur : pystr) :
  nonempty (rev cur ++ [c]) = true.
Proof. destruct (rev cur); reflexivity. Qed.

(** The scanner with a pending token [cur] agrees with split-and-filter. *)
Lemma scan_words_split (p : pychar -> bool) (s cur : pystr) :
  scan_words p cur s
  = filter nonempty
      (match split_by p s with
       | q :: qs => (rev cur ++ q) :: qs
       | [] => [rev cur]
       end).
Proof.
  revert cur; induction s as [|c r IH]; intros cur.
  - simpl. rewrite app_nil_r.
    destruct cur as [|c cur]; [reflexivity|]. simpl.
    rewrite nonempty_rev_cons. reflexivity.
  - simpl. destruct (p c).
    + assert (Hr : scan_words p [] r = filter nonempty (split_by p r)).
      { rewrite IH. pose proof (split_by_not_nil p r) as Hn.
        destruct (split_by p r); [congruence|reflexivity]. }
      rewrite app_nil_r.
      destruct cur as [|c' cur]; simpl; [exact Hr|].
      rewrite nonempty_rev_cons, Hr. reflexivity.
    + rewrite IH. simpl.
      destruct (split_by p r) as [|q qs]; simpl;
        rewrite <- ?app_assoc; reflexivity.
Qed.

Lemma words_split (p : pychar -> bool) (s : pystr) :
  words p s = filter nonempty (split_by p s).
Proof.
  unfold words. rewrite scan_words_split. simpl.
  pose proof (split_by_not_nil p s) as Hn.
  destruct (split_by p s); [congruence|reflexivity].
Qed.

Lemma words_nonempty (p : pychar -> bool) (s : pystr) :
  Forall (fun t => nonempty t = true) (words p s).
Proof.
  rewrite words_split. apply Forall_forall.
  intros t Ht. apply filter_In in Ht. apply Ht.
Qed.

Lemma mask_parts_map (ts : list pystr) :
  Forall (fun t => nonempty t = true) ts ->
  mask_parts ts = Some (map mask_token ts).
Proof.
  induction 1 as [|t ts Ht _ IH]; [reflexivity|].
  simpl. rewrite IH. destruct t; [discriminate|].
  unfold mask_part, mask_token. destruct (_ <=? _)%nat; reflexivity.
Qed.

(** The [try] block of [mask_name] always returns, with the value of the
    space-splitting reading of the rule. *)
Lemma mask_name_try_spaces (name : pystr) :
  mask_name_try name = Some (mask_name_spaces name).
Proof.
  unfold mask_name_try, mask_name_spaces, py_split_sep.
  rewrite <- words_split.
  pose proof (words_nonempty (N.eqb space) (py_strip name)) as Hne.
  destruct (words (N.eqb space) (py_strip name)) as [|t ts]; [reflexivity|].
  rewrite (mask_parts_map _ Hne). reflexivity.
Qed.

(** ** C8: what [mask_name] computes *)

(** C8, as stated: tokens are the whitespace-separated words.  Refuted by
    "Jo<TAB>Smith": the source cuts at spaces only, so the tab stays inside
    one token and the result is "J***", not "J* S***". *)
Lemma mask_name_tab_not_split :
  ~ (forall name : pystr, mask_name name = mask_name_spec name).
Proof.
  intros H.
  specialize (H (lit "Jo" ++ [9%N] ++ lit "Smith")).
  vm_compute in H. discriminate.
Qed.

(** C8, amended. [mask_name] never reaches its fallback handler, and
    computes: strip surrounding whitespace, cut at space characters only,
    drop empty tokens; no token gives "Customer"; otherwise each token of
    length <= 2 becomes its first character and "*", each longer token its
    first character and "***", joined by single spaces. *)
Theorem mask_name_space_tokens (name : pystr) :
  mask_name_try name = Some (mask_name_spaces name)
  /\ mask_name name = mask_name_spaces name.
Proof.
  pose proof (mask_name_try_spaces name) as H.
  split; [exact H|]. unfold mask_name. rewrite H. reflexivity.
Qed.

(** ** C9: the masks never fail, and when they echo their input *)

Lemma in_py_join_head (sep x : pystr) (xs : list pystr) (c : pychar) :
  In c x -> In c (py_join sep (x :: xs)).
Proof.
  intros Hc. destruct xs; simpl; [exact Hc|].
  apply in_or_app. left. exact Hc.
Qed.

Lemma star_in_mask_token (t : pystr) :
  nonempty t = true -> In star (mask_token t).
Proof.
  destruct t as [|c t]; [discriminate|]. intros _.
  unfold mask_token. destruct (_ <=? _)%nat; right; left; reflexivity.
Qed.

Lemma in_skipn {A} (n : nat) (l : list A) (x : A) :
  In x (skipn n l) -> In x l.
Proof.
  intros H. rewrite <- (firstn_skipn n l). apply in_or_app. right. exact H.
Qed.

Lemma filter_forallb_id {A} (f : A -> bool) (l : list A) :
  forallb f l = true -> filter f l = l.
Proof.
  induction l as [|x l IH]; simpl; [reflexivity|].
  rewrite andb_true_iff. intros [-> Hl]. rewrite IH by exact Hl.
  reflexivity.
Qed.

(** Where a token of [words] sits in the string: between a separator (or
    the start) and a separator (or the end). *)
Lemma scan_words_in (p : pychar -> bool) (s cur t : pystr) :
  In t (scan_words p cur s) -> (forall x, In x cur -> p x = false) ->
  exists pre post, rev cur ++ s = pre ++ t ++ post
    /\ (post = [] \/ exists d post', post = d :: post' /\ p d = true)
    /\ (forall x, In x t -> p x = false).
Proof.
  revert cur; induction s as [|c r IH]; intros cur Ht Hcur.
  - simpl in Ht. destruct cur as [|c0 cur0]; [destruct Ht|].
    destruct Ht as [<-|[]]. exists [], []. split; [simpl; rewrite !app_nil_r; reflexivity|].
    split; [left; reflexivity|]. intros x Hx. apply Hcur. apply in_rev. exact Hx.
  - simpl in Ht. destruct (p c) eqn:Pc.
    + destruct cur as [|c0 cur0].
      * destruct (IH [] Ht ltac:(intros x [])) as (pre & post & He & Hp & Hx).
        exists (c :: pre), post. split; [simpl in *; rewrite He; reflexivity|].
        split; assumption.
      * destruct Ht as [<-|Ht].
        -- exists [], (c :: r). split; [simpl; reflexivity|].
           split; [right; exists c, r; split; [reflexivity|exact Pc]|].
           intros x Hx. apply Hcur. apply in_rev. exact Hx.
        -- destruct (IH [] Ht ltac:(intros x [])) as (pre & post & He & Hp & Hx).
           exists (rev (c0 :: cur0) ++ c :: pre), post.
           split; [simpl in He; rewrite He, <- app_assoc; reflexivity|].
           split; assumption.
    + destruct (IH (c :: cur) Ht) as (pre & post & He & Hp & Hx).
      * intros x [<-|Hx]; [exact Pc|exact (Hcur x Hx)].
      * exists pre, post. split; [|split; assumption].
        rewrite <- He. simpl. rewrite <- app_assoc. reflexivity.
Qed.

Lemma mask_token_shape (t : pystr) :
  nonempty t = true ->
  exists c0 s, mask_token t = c0 :: s /\ s <> [] /\ (forall x, In x s -> x = star).
Proof.
  destruct t as [|c t]; [discriminate|]. intros _. unfold mask_token.
  destruct (_ <=? _)%nat; eexists _, _; (split; [reflexivity|]);
    (split; [discriminate|]); intros x Hx;
    repeat (destruct Hx as [<-|Hx]; [reflexivity|]); destruct Hx.
Qed.

Lemma star_not_space : py_isspace star = false.
Proof. reflexivity. Qed.

(** In a masked name, every non-whitespace character that ends a run of
    non-whitespace characters is a '*'. *)
Lemma py_join_masked_run_end (ts : list pystr) :
  Forall (fun t => nonempty t = true) ts ->
  forall pre c post,
    py_join (lit " ") (map mask_token ts) = pre ++ c :: post ->
    py_isspace c = false ->
    (post = [] \/ exists d post', post = d :: post' /\ py_isspace d = true) ->
    c = star.
Proof.
  induction 1 as [|t ts Ht Hts IH]; intros pre c post He Hc Hpost.
  - simpl in He. destruct pre; discriminate.
  - destruct (mask_token_shape t Ht) as (c0 & s & Hm & Hs & Hstar).
    assert (Hin_m : forall pre' c' post',
               c0 :: s = pre' ++ c' :: post' -> pre' <> [] -> In c' s).
    { intros pre' c' post' Heq Hpre. destruct pre' as [|y pre']; [congruence|].
      simpl in Heq. injection Heq as _ ->. apply in_or_app. right. left.
      reflexivity. }
    (* inside the masked token itself *)
    assert (Htok : forall post', c0 :: s = pre ++ c :: post' ->
              (post' = [] \/ exists d post'', post' = d :: post''
                                           /\ py_isspace d = true) ->
              c = star).
    { intros post' Heq [->|(d & post'' & -> & Hd)].
      - destruct pre as [|y pre].
        + simpl in Heq. injection Heq as _ ->. exfalso. apply Hs. reflexivity.
        + apply Hstar. apply (Hin_m (y :: pre) c []); [exact Heq|discriminate].
      - exfalso. assert (Hd' : In d s).
        { apply (Hin_m (pre ++ [c]) d post'').
          - rewrite Heq, <- app_assoc. reflexivity.
          - destruct pre; discriminate. }
        rewrite (Hstar d Hd'), star_not_space in Hd. discriminate. }
    destruct ts as [|t2 ts'].
    + simpl in He. rewrite Hm in He. exact (Htok post He Hpost).
    + change (py_join (lit " ") (map mask_token (t :: t2 :: ts')))
        with (mask_token t ++ lit " " ++ py_join (lit " ")
                (map mask_token (t2 :: ts'))) in He.
      rewrite Hm in He.
      destruct (app_eq_app _ _ _ _ He) as (l & [[Hl1 Hl2]|[Hl1 Hl2]]).
      * (* the position lies inside the masked token, or on the space *)
        destruct l as [|y l].
        -- simpl in Hl2. injection Hl2 as Hsp _. subst c. discriminate.
        -- simpl in Hl2. injection Hl2 as Hcy Hpost'. subst y.
           destruct l as [|y' l].
           ++ apply (Htok []); [exact Hl1|left; reflexivity].
           ++ exfalso. assert (Hy : In y' s).
              { apply (Hin_m (pre ++ [c]) y' l).
                - rewrite Hl1, <- app_assoc. reflexivity.
                - destruct pre; discriminate. }
              destruct Hpost as [->|(d & post'' & Hp & Hd)];
                [discriminate|].
              rewrite Hp in Hpost'. simpl in Hpost'.
              injection Hpost' as Hdy _. subst d.
              rewrite (Hstar y' Hy), star_not_space in Hd. discriminate.
      * (* the position lies after the space *)
        destruct l as [|y l].
        -- simpl in Hl2. injection Hl2 as Hsp _. subst c. discriminate.
        -- simpl in Hl2. injection Hl2 as _ Hrest.
           exact (IH l c post Hrest Hc Hpost).
Qed.

(** C9, amended. [mask_name] never fails, and differs from its input
    whenever some whitespace-separated token of the input contains no '*'
    (so whenever the input has an alphabetic token); [mask_phone] is
    total, and for an input with at least four digits it returns its input
    unchanged exactly when that input is already "***-***-" followed by
    four digits. *)
Theorem mask_never_fails_or_echoes (name phone : pystr) :
  mask_name_try name <> None
  /\ ((exists t, In t (words py_isspace name) /\ ~ In star t) ->
      mask_name name <> name)
  /\ ((4 <= List.length (filter py_isdigit phone))%nat ->
      (mask_phone phone = phone
       <-> exists ds, List.length ds = 4%nat /\ forallb py_isdigit ds = true
             /\ phone = lit "***-***-" ++ ds)).
Proof.
  split; [|split].
  - rewrite mask_name_try_spaces. discriminate.
  - intros (t & Ht & Hnostar) Heq.
    pose proof (mask_name_try_spaces name) as Hsp.
    unfold mask_name in Heq. rewrite Hsp in Heq.
    unfold mask_name_spaces, render_masked in Heq.
    pose proof (words_nonempty (N.eqb space) (py_strip name)) as Hne.
    destruct (words (N.eqb space) (py_strip name)) as [|t0 ts] eqn:Ew.
    + subst name. vm_compute in Ew. discriminate.
    + destruct (scan_words_in py_isspace name [] t Ht ltac:(intros x []))
        as (pre & post & Hname & Hpost & Hsep).
      pose proof (proj1 (Forall_forall _ _) (words_nonempty py_isspace name)
                    t Ht) as Htne.
      destruct (exists_last (l := t)) as (t' & c & Htc);
        [destruct t; discriminate|].
      apply Hnostar. rewrite Htc. apply in_or_app. right. left.
      apply (py_join_masked_run_end (t0 :: ts) Hne (pre ++ t') c post).
      * rewrite Heq. simpl in Hname. rewrite Hname, Htc, <- !app_assoc.
        reflexivity.
      * apply Hsep. rewrite Htc. apply in_or_app. right. left. reflexivity.
      * exact Hpost.
  - intros H4. unfold mask_phone.
    destruct (Nat.ltb_spec (List.length (filter py_isdigit phone)) 4)
      as [Hlt|_]; [lia|].
    split.
    + intros Heq.
      exists (skipn (List.length (filter py_isdigit phone) - 4)
                (filter py_isdigit phone)).
      split; [rewrite length_skipn; lia|]. split; [|symmetry; exact Heq].
      apply forallb_forall. intros x Hx.
      apply in_skipn, filter_In in Hx. apply Hx.
    + intros (ds & Hlen & Hds & ->).
      rewrite filter_app, (filter_forallb_id _ ds Hds).
      change (filter py_isdigit (lit "***-***-")) with (@nil pychar).
      simpl. rewrite Hlen. reflexivity.
Qed.

Lemma mask_never_fails_or_echoes_witness :
  mask_name (lit "Jo* Smith") <> lit "Jo* Smith"
  /\ mask_phone (lit "555-123-4567") <> lit "555-123-4567".
Proof.
  destruct (mask_never_fails_or_echoes (lit "Jo* Smith") (lit "555-123-4567"))
    as (_ & Hn & Hp).
  split.
  - apply Hn. exists (lit "Smith"). split.
    + vm_compute. right. left. reflexivity.
    + vm_compute. intuition discriminate.
  - intros Heq. apply Hp in Heq; [|vm_compute; lia].
    destruct Heq as (ds & _ & _ & H). simpl in H. discriminate.
Defined.

(** C9, as stated: [mask_phone] never returns its input when it has four
    digits.  Refuted by an already masked number. *)
Lemma mask_phone_fixed_point :
  ~ (forall phone : pystr,
       (4 <= List.length (filter py_isdigit phone))%nat ->
       mask_phone phone <> phone).
Proof.
  intros H. apply (H (lit "***-***-1234")).
  - vm_compute. lia.
  - vm_compute. reflexivity.
Qed.

End MaskFacts.

(** * Further properties of the privacy helpers *)
Module MaskMore.
Import PyStr MaskFacts.

Lemma filter_lit_mask_prefix :
  filter py_isdigit (lit "***-***-") = [] /\ filter py_isdigit (lit "***") = [].
Proof. split; reflexivity. Qed.

Lemma forallb_filter_skipn (n : nat) (l : list pychar) :
  forallb py_isdigit (skipn n (filter py_isdigit l)) = true.
Proof.
  apply forallb_forall. intros x Hx.
  apply in_skipn, filter_In in Hx. apply Hx.
Qed.

(** [mask_phone] reveals no digit of a phone with fewer than four digits,
    and exactly its last four digits otherwise. *)
Theorem mask_phone_digits (phone : pystr) :
  let ds := filter py_isdigit phone in
  filter py_isdigit (mask_phone phone)
  = (if (List.length ds <? 4)%nat then [] else skipn (List.length ds - 4) ds)
  /\ (List.length (filter py_isdigit (mask_phone phone)) <= 4)%nat.
Proof.
  cbv zeta. unfold mask_phone.
  destruct (Nat.ltb_spec (List.length (filter py_isdigit phone)) 4)
    as [Hlt|Hge].
  - split; [reflexivity|]. simpl. lia.
  - rewrite filter_app, (filter_forallb_id _ _ (forallb_filter_skipn _ _)).
    split; [reflexivity|]. simpl. rewrite length_skipn. lia.
Qed.

(** Masking a phone twice gives the same as masking it once. *)
Theorem mask_phone_idempotent (phone : pystr) :
  mask_phone (mask_phone phone) = mask_phone phone.
Proof.
  remember (mask_phone phone) as m eqn:Em. unfold mask_phone in Em.
  set (ds := filter py_isdigit phone) in Em.
  destruct (Nat.ltb_spec (List.length ds) 4) as [Hlt|Hge];
    subst m; [reflexivity|].
  set (l4 := skipn (List.length ds - 4) ds).
  assert (Hl4 : List.length l4 = 4%nat) by (unfold l4; rewrite length_skipn; lia).
  assert (Hd : filter py_isdigit (lit "***-***-" ++ l4) = l4).
  { rewrite filter_app. apply filter_forallb_id, forallb_filter_skipn. }
  unfold mask_phone at 1. rewrite Hd, Hl4. reflexivity.
Qed.

(** ** Re-masking a masked name *)

Lemma split_by_no_sep (p : pychar -> bool) (x : pystr) :
  (forall c, In c x -> p c = false) -> split_by p x = [x].
Proof.
  induction x as [|c x IH]; intros H; [reflexivity|]. simpl.
  rewrite (H c (or_introl eq_refl)), IH by (intros; apply H; right; auto).
  reflexivity.
Qed.

Lemma split_by_app_sep (p : pychar -> bool) (x y : pystr) (c : pychar) :
  (forall c', In c' x -> p c' = false) -> p c = true ->
  split_by p (x ++ c :: y) = x :: split_by p y.
Proof.
  intros Hx Hc. induction x as [|c' x IH]; simpl; [rewrite Hc; reflexivity|].
  rewrite IH by (intros; apply Hx; right; auto).
  rewrite (Hx c' (or_introl eq_refl)). reflexivity.
Qed.

Lemma split_by_join (ms : list pystr) :
  ms <> [] -> (forall m c, In m ms -> In c m -> N.eqb space c = false) ->
  split_by (N.eqb space) (py_join (lit " ") ms) = ms.
Proof.
  induction ms as [|m ms IH]; intros Hne H; [congruence|].
  destruct ms as [|m' ms'].
  - simpl. apply split_by_no_sep. intros c Hc. apply (H m); simpl; auto.
  - change (py_join (lit " ") (m :: m' :: ms'))
      with (m ++ space :: py_join (lit " ") (m' :: ms')).
    rewrite split_by_app_sep; [| intros c Hc; apply (H m); simpl; auto
                              | apply N.eqb_refl].
    rewrite IH; [reflexivity|discriminate|].
    intros m0 c Hm Hc. apply (H m0); [right; exact Hm|exact Hc].
Qed.

Lemma split_by_no_sep_in (p : pychar -> bool) (s x : pystr) (c : pychar) :
  In x (split_by p s) -> In c x -> p c = false.
Proof.
  revert x; induction s as [|c0 r IH]; intros x Hx Hc; simpl in Hx.
  - destruct Hx as [<-|[]]. destruct Hc.
  - destruct (p c0) eqn:Ep.
    + destruct Hx as [<-|Hx]; [destruct Hc|eauto].
    + destruct (split_by p r) as [|q qs] eqn:Es.
      * destruct Hx as [<-|[]]. destruct Hc as [<-|[]]. exact Ep.
      * destruct Hx as [<-|Hx].
        -- destruct Hc as [<-|Hc]; [exact Ep|].
           apply (IH q); [left; reflexivity|exact Hc].
        -- apply (IH x); [right; exact Hx|exact Hc].
Qed.

Lemma words_no_sep (p : pychar -> bool) (s t : pystr) (c : pychar) :
  In t (words p s) -> In c t -> p c = false.
Proof.
  rewrite words_split. intros Ht. apply filter_In in Ht.
  apply (split_by_no_sep_in p s t c), Ht.
Qed.

(** The first word begins with the first character when that is not a
    separator. *)
Lemma scan_words_head (p : pychar -> bool) (s cur : pystr) (c : pychar) :
  exists x rest, scan_words p (cur ++ [c]) s = (rev (cur ++ [c]) ++ x) :: rest.
Proof.
  revert cur; induction s as [|c0 r IH]; intros cur; simpl.
  - destruct (cur ++ [c]) eqn:E; [destruct cur; discriminate|].
    exists [], []. rewrite app_nil_r. reflexivity.
  - destruct (p c0).
    + destruct (cur ++ [c]) eqn:E; [destruct cur; discriminate|].
      exists [], (scan_words p [] r). rewrite app_nil_r. reflexivity.
    + destruct (IH (c0 :: cur)) as (x & rest & Hx).
      simpl in Hx. exists (c0 :: x), rest. rewrite Hx.
      rewrite <- app_assoc. reflexivity.
Qed.

Lemma words_first_char (p : pychar -> bool) (c : pychar) (r : pystr) :
  p c = false -> exists x rest, words p (c :: r) = (c :: x) :: rest.
Proof.
  intros Hc. unfold words. simpl. rewrite Hc.
  destruct (scan_words_head p r [] c) as (x & rest & H).
  simpl in H. eauto.
Qed.

Lemma mask_token_idempotent (t : pystr) : mask_token (mask_token t) = mask_token t.
Proof.
  destruct t as [|c t]; [reflexivity|].
  unfold mask_token. destruct (_ <=? _)%nat; reflexivity.
Qed.

Lemma py_join_last_star (ms : list pystr) :
  ms <> [] -> (forall m, In m ms -> exists pre, m = pre ++ [star]) ->
  exists pre, py_join (lit " ") ms = pre ++ [star].
Proof.
  induction ms as [|m ms IH]; intros Hne H; [congruence|].
  destruct ms as [|m' ms'].
  - apply H; left; reflexivity.
  - destruct IH as [pre Hpre]; [discriminate|intros; apply H; right; auto|].
    change (py_join (lit " ") (m :: m' :: ms'))
      with (m ++ lit " " ++ py_join (lit " ") (m' :: ms')).
    rewrite Hpre. exists (m ++ lit " " ++ pre).
    rewrite !app_assoc. reflexivity.
Qed.

Lemma mask_token_star (t : pystr) :
  t <> [] -> exists pre, mask_token t = pre ++ [star].
Proof.
  destruct t as [|c t]; [congruence|]. intros _. unfold mask_token.
  destruct (_ <=? _)%nat; [exists [c]|exists [c; star; star]]; reflexivity.
Qed.

Lemma lstrip_head (x : pystr) :
  lstrip x = [] \/ exists c r, lstrip x = c :: r /\ py_isspace c = false.
Proof.
  induction x as [|c x IH]; simpl; [auto|].
  destruct (py_isspace c) eqn:E; [exact IH|right; eauto].
Qed.

Lemma lstrip_snoc (x : pystr) (c : pychar) :
  py_isspace c = false -> lstrip (x ++ [c]) = lstrip x ++ [c].
Proof.
  intros Hc. induction x as [|y x IH]; simpl; [rewrite Hc; reflexivity|].
  destruct (py_isspace y); [exact IH|reflexivity].
Qed.

Lemma lstrip_keep (c : pychar) (r : pystr) :
  py_isspace c = false -> lstrip (c :: r) = c :: r.
Proof. intros Hc. simpl. rewrite Hc. reflexivity. Qed.

(** A stripped string is empty or starts with a non-whitespace character. *)
Lemma py_strip_head (s : pystr) :
  py_strip s = [] \/ exists c r, py_strip s = c :: r /\ py_isspace c = false.
Proof.
  unfold py_strip. destruct (lstrip_head s) as [->|(c & r & -> & Hc)];
    [left; reflexivity|].
  right. exists c, (rev (lstrip (rev r))). split; [|exact Hc].
  simpl. rewrite lstrip_snoc by exact Hc. rewrite rev_app_distr. reflexivity.
Qed.

Lemma mask_name_eq_spaces (name : pystr) : mask_name name = mask_name_spaces name.
Proof. unfold mask_name. rewrite mask_name_try_spaces. reflexivity. Qed.

(** Masking a name that has at least one token is idempotent: the masked
    form has the same tokens, each already masked. *)
Theorem mask_name_idempotent (name : pystr)
    (Hw : words (N.eqb space) (py_strip name) <> []) :
  mask_name (mask_name name) = mask_name name.
Proof.
  rewrite !mask_name_eq_spaces. unfold mask_name_spaces at 2 3.
  pose proof (words_nonempty (N.eqb space) (py_strip name)) as Hne.
  pose proof (words_no_sep (N.eqb space) (py_strip name)) as Hns.
  destruct (py_strip_head name) as [Hs|(c & r & Hs & Hc)];
    [rewrite Hs in Hw; contradiction|].
  assert (Hcs : N.eqb space c = false).
  { destruct (N.eqb_spec space c) as [<-|]; [discriminate|reflexivity]. }
  destruct (words_first_char _ c r Hcs) as (x & rest & Hwd).
  rewrite Hs in Hne, Hns |- *. rewrite Hwd in Hne, Hns |- *.
  set (ts := (c :: x) :: rest) in *.
  assert (Hms : map mask_token ts <> []) by discriminate.
  assert (Hnosp : forall m d, In m (map mask_token ts) -> In d m ->
                    N.eqb space d = false).
  { intros m d Hm Hd. apply in_map_iff in Hm. destruct Hm as (t & <- & Ht).
    destruct t as [|c0 t0]; [destruct Hd|].
    unfold mask_token in Hd.
    destruct (_ <=? _)%nat; destruct Hd as [<-|Hd];
      try (apply (Hns (c0 :: t0)); [exact Ht|left; reflexivity]);
      repeat (destruct Hd as [<-|Hd]; [reflexivity|]); destruct Hd. }
  assert (Hout : py_strip (render_masked ts) = render_masked ts).
  { unfold render_masked, ts. fold ts.
    destruct (py_join_last_star (map mask_token ts)) as [pre Hpre];
      [exact Hms| |].
    { intros m Hm. apply in_map_iff in Hm. destruct Hm as (t & <- & Ht).
      apply mask_token_star. apply (proj1 (Forall_forall _ _) Hne) in Ht.
      destruct t; [discriminate|discriminate]. }
    unfold py_strip.
    assert (Hhead : exists y, py_join (lit " ") (map mask_token ts) = c :: y).
    { assert (Hm : exists z, mask_token (c :: x) = c :: z)
        by (unfold mask_token; destruct (_ <=? _)%nat; eexists; reflexivity).
      destruct Hm as [z Hz]. unfold ts. rewrite map_cons, Hz.
      destruct rest; simpl; eexists; reflexivity. }
    destruct Hhead as [y Hy]. rewrite Hy, lstrip_keep by exact Hc.
    rewrite <- Hy, Hpre, rev_app_distr. simpl. rewrite rev_involutive.
    reflexivity. }
  assert (Hr : render_masked ts = py_join (lit " ") (map mask_token ts))
    by reflexivity.
  unfold mask_name_spaces. rewrite Hout, Hr.
  rewrite words_split, split_by_join by assumption.
  rewrite filter_forallb_id.
  2:{ apply forallb_forall. intros m Hm. apply in_map_iff in Hm.
      destruct Hm as (t & <- & Ht). apply (proj1 (Forall_forall _ _) Hne) in Ht.
      destruct t as [|c0 t0]; [discriminate|].
      unfold mask_token. destruct (_ <=? _)%nat; reflexivity. }
  unfold render_masked.
  rewrite map_map, (map_ext _ _ mask_token_idempotent).
  destruct (map mask_token ts); [contradiction|reflexivity].
Qed.

Lemma mask_name_idempotent_witness :
  mask_name (mask_name (lit "Jo Smith")) = mask_name (lit "Jo Smith").
Proof.
  apply mask_name_idempotent. vm_compute. discriminate.
Defined.

End MaskMore.

(** * How the appointment handlers compose *)
Module BookingMore.
Import PyStr Booking Listing Samples BookingFacts.
Local Open Scope Z_scope.

(** The outcome of [create_appointment], case by case. *)
Lemma create_appointment_cases (body : AppointmentIn) (st : store) :
  (create_appointment body st = (Err OverflowError, st)
   /\ add_minutes body.(in_start_time) body.(in_duration_min) = None)
  \/ (exists e c, add_minutes body.(in_start_time) body.(in_duration_min) = Some e
      /\ find (overlap_filter body.(in_barber_id) body.(in_start_time) e)
           st.(appointments) = Some c
      /\ create_appointment body st = (Err slot_unavailable, st))
  \/ (exists e, add_minutes body.(in_start_time) body.(in_duration_min) = Some e
      /\ find (overlap_filter body.(in_barber_id) body.(in_start_time) e)
           st.(appointments) = None
      /\ let a := {|
           customer_name := body.(in_customer_name);
           customer_phone := body.(in_customer_phone);
           barber_id := body.(in_barber_id);
           service_name := body.(in_service_name);
           start_time := body.(in_start_time);
           end_time := e;
           duration_min := body.(in_duration_min);
           notes := body.(in_notes);
           status := lit "booked";
           updated_at := None |} in
         let st' := {| appointments := st.(appointments) ++ [(st.(next_oid), a)];
                       next_oid := N.succ st.(next_oid) |} in
         create_appointment body st
         = (Ok (find (by_id st.(next_oid)) st'.(appointments)), st')).
Proof.
  unfold create_appointment, timedelta_add, bind, find_one, raise, ret,
    create_document.
  destruct (add_minutes _ _) as [e|] eqn:E; simpl; [|left; auto].
  right. destruct (find _ _) as [c|] eqn:F; [left; eauto|right; eauto].
Qed.

Lemma find_app_split {A} (f : A -> bool) (l l' : list A) :
  find f (l ++ l') = match find f l with Some x => Some x | None => find f l' end.
Proof.
  induction l as [|x l IH]; simpl; [reflexivity|].
  destruct (f x); [reflexivity|exact IH].
Qed.

Lemma find_app_fresh (oid : object_id) (l : list document) (a : appointment) :
  Forall (fun d => (fst d < oid)%N) l ->
  find (by_id oid) (l ++ [(oid, a)]) = Some (oid, a).
Proof.
  intros Hf. rewrite find_app_split.
  replace (find (by_id oid) l) with (@None document).
  - simpl. unfold by_id. simpl. rewrite N.eqb_refl. reflexivity.
  - symmetry. apply find_none_iff. intros x Hx.
    apply (proj1 (Forall_forall _ _) Hf) in Hx. unfold by_id.
    destruct x as [o a']. simpl in *. apply N.eqb_neq.
    intros ->. exact (N.lt_irrefl _ Hx).
Qed.

(** A successful [create_appointment] returns exactly the document it
    appended: the request's fields, [end_time = start + duration_min]
    minutes, [status = "booked"], under the next fresh [_id]. *)
Theorem create_returns_inserted (body : AppointmentIn) (st : store)
    (r : option document)
    (Hfresh : ids_fresh st)
    (Hok : fst (create_appointment body st) = Ok r) :
  let a := {|
    customer_name := body.(in_customer_name);
    customer_phone := body.(in_customer_phone);
    barber_id := body.(in_barber_id);
    service_name := body.(in_service_name);
    start_time := body.(in_start_time);
    end_time := body.(in_start_time) + body.(in_duration_min) * ms_per_minute;
    duration_min := body.(in_duration_min);
    notes := body.(in_notes);
    status := lit "booked";
    updated_at := None |} in
  r = Some (st.(next_oid), a)
  /\ snd (create_appointment body st)
     = {| appointments := st.(appointments) ++ [(st.(next_oid), a)];
          next_oid := N.succ st.(next_oid) |}.
Proof.
  intros a.
  destruct (create_appointment_cases body st)
    as [[H _]|[(e & c & _ & _ & H)|(e & He & _ & H)]];
    rewrite H in Hok |- *; simpl in Hok; try discriminate.
  apply add_minutes_some_inv in He. subst e.
  rewrite find_app_fresh in Hok by exact Hfresh.
  injection Hok as <-. split; reflexivity.
Qed.

Lemma create_returns_inserted_witness :
  fst (create_appointment (sample_request (at_minute 540) 45) sample_store)
  = Ok (Some (1%N, {|
      customer_name := lit "Ann Lee";
      customer_phone := lit "555-987-6543";
      barber_id := lit "B";
      service_name := lit "Beard Trim";
      start_time := at_minute 540;
      end_time := at_minute 540 + 45 * ms_per_minute;
      duration_min := 45;
      notes := None;
      status := lit "booked";
      updated_at := None |})).
Proof.
  assert (Hok : exists r, fst (create_appointment
                   (sample_request (at_minute 540) 45) sample_store) = Ok r)
    by (eexists; vm_compute; reflexivity).
  destruct Hok as [r Hok].
  assert (Hf : ids_fresh sample_store)
    by (unfold ids_fresh; simpl; repeat constructor).
  destruct (create_returns_inserted _ _ r Hf Hok) as [Hr _].
  rewrite Hok, Hr. reflexivity.
Defined.

(** ** How create, cancel and check compose *)

Lemma find_snoc_hit {A} (f : A -> bool) (l : list A) (x : A) :
  find f l = None -> f x = true -> find f (l ++ [x]) = Some x.
Proof. intros Hl Hx. rewrite find_app_split, Hl. simpl. rewrite Hx. reflexivity. Qed.

Lemma find_snoc_miss {A} (f : A -> bool) (l : list A) (x : A) :
  f x = false -> find f (l ++ [x]) = find f l.
Proof.
  intros Hx. rewrite find_app_split. destruct (find f l); [reflexivity|].
  simpl. rewrite Hx. reflexivity.
Qed.

Lemma pystr_eqb_refl (s : pystr) : pystr_eqb s s = true.
Proof. apply pystr_eqb_eq. reflexivity. Qed.

Lemma overlap_set_canceled (b : pystr) (s e now : instant) (o : object_id)
    (a : appointment) :
  overlap_filter b s e (o, set_canceled now a) = false.
Proof.
  unfold overlap_filter. simpl. rewrite andb_false_r. reflexivity.
Qed.

Lemma Forall2_in_r {A B} (R : A -> B -> Prop) (l : list A) (l' : list B)
    (y : B) :
  Forall2 R l l' -> In y l' -> exists x, In x l /\ R x y.
Proof.
  induction 1 as [|x y' l l' Hxy _ IH]; intros Hy; [destruct Hy|].
  destruct Hy as [<-|Hy]; [exists x; split; [left|]; auto|].
  destruct (IH Hy) as (x' & Hx' & Hr). exists x'. split; [right|]; auto.
Qed.

Lemma update_first_snoc_fresh (oid : object_id) (f : appointment -> appointment)
    (l : list document) (a : appointment) :
  Forall (fun d => (fst d < oid)%N) l ->
  update_first (by_id oid) f (l ++ [(oid, a)]) = Some (a, l ++ [(oid, f a)]).
Proof.
  induction l as [|[o x] l IH]; intros Hf.
  - simpl. unfold by_id. simpl. rewrite N.eqb_refl. reflexivity.
  - inversion Hf as [|? ? Ho Hl]; subst. simpl in Ho.
    simpl. unfold by_id at 1. simpl.
    replace (N.eqb o oid) with false
      by (symmetry; apply N.eqb_neq; intros ->; exact (N.lt_irrefl _ Ho)).
    rewrite (IH Hl). reflexivity.
Qed.

(** Once [create_appointment] has booked a slot of positive length, the
    same slot is reported busy and booking it again fails with 400 "Time
    slot not available", without a write. *)
Theorem create_then_slot_taken (body : AppointmentIn) (st : store)
    (r : option document)
    (Hok : fst (create_appointment body st) = Ok r)
    (Hpos : 0 < body.(in_duration_min)) :
  let st1 := snd (create_appointment body st) in
  check_availability body.(in_barber_id) body.(in_start_time)
    body.(in_duration_min) st1 = (Ok false, st1)
  /\ create_appointment body st1 = (Err slot_unavailable, st1).
Proof.
  destruct (create_appointment_cases body st)
    as [[H _]|[(e & c & _ & _ & H)|(e & He & Hfind & H)]];
    rewrite H in Hok |- *; simpl in Hok; try discriminate.
  cbv zeta. simpl snd.
  pose proof (add_minutes_some_inv _ _ _ He) as He'.
  match goal with
  | |- context [ st.(appointments) ++ [?x] ] =>
      assert (Hx : find (overlap_filter body.(in_barber_id) body.(in_start_time) e)
                     (st.(appointments) ++ [x]) = Some x)
  end.
  { apply find_snoc_hit; [exact Hfind|].
    unfold overlap_filter. simpl. rewrite pystr_eqb_refl. simpl.
    apply andb_true_iff; split; apply Z.ltb_lt; unfold ms_per_minute in He'; lia. }
  split.
  - rewrite check_availability_eq, He. simpl. rewrite Hx. reflexivity.
  - unfold create_appointment at 1. unfold timedelta_add, bind, find_one, raise.
    rewrite He. simpl. rewrite Hx. reflexivity.
Qed.

Lemma create_then_slot_taken_witness :
  let st1 := snd (create_appointment (sample_request (at_minute 540) 45)
                    sample_store) in
  create_appointment (sample_request (at_minute 540) 45) st1
  = (Err slot_unavailable, st1).
Proof.
  assert (Hok : exists r, fst (create_appointment
                   (sample_request (at_minute 540) 45) sample_store) = Ok r)
    by (eexists; vm_compute; reflexivity).
  destruct Hok as [r Hok].
  destruct (create_then_slot_taken _ _ r Hok) as [_ H]; [simpl; lia|].
  exact H.
Defined.

(** Cancelling never makes a free slot busy: if [check_availability]
    answers [true] before a cancel, it answers [true] after it. *)
Theorem cancel_keeps_free (oid : object_id) (now : instant) (st : store)
    (b : pystr) (s d : Z)
    (Hfree : fst (check_availability b s d st) = Ok true) :
  fst (check_availability b s d (snd (cancel_appointment oid now st))) = Ok true.
Proof.
  rewrite check_availability_eq in Hfree |- *. simpl in Hfree |- *.
  destruct (add_minutes s d) as [e|]; [|discriminate].
  destruct (find (overlap_filter b s e) st.(appointments)) eqn:F;
    [discriminate|].
  rewrite find_none_iff in F.
  replace (find _ _) with (@None document); [reflexivity|].
  symmetry. apply find_none_iff. intros y Hy.
  destruct (Forall2_in_r _ _ _ _ (cancel_appointment_store oid now st) Hy)
    as (x & Hx & Hxy & [Hs|Hs]).
  - destruct x as [o a], y as [o' a']. simpl in Hxy, Hs. subst.
    exact (F _ Hx).
  - destruct y as [o' a']. simpl in Hs. subst. apply overlap_set_canceled.
Qed.

Lemma cancel_keeps_free_witness :
  fst (check_availability (lit "B") (at_minute 630) 15
         (snd (cancel_appointment 0%N (at_minute 700) sample_store)))
  = Ok true.
Proof. apply cancel_keeps_free. vm_compute. reflexivity. Defined.

(** A booking for one barber never changes what [check_availability]
    answers for another barber. *)
Theorem create_other_barber_independent (body : AppointmentIn) (st : store)
    (b : pystr) (s d : Z)
    (Hb : b <> body.(in_barber_id)) :
  fst (check_availability b s d (snd (create_appointment body st)))
  = fst (check_availability b s d st).
Proof.
  destruct (create_appointment_cases body st)
    as [[H _]|[(e & c & _ & _ & H)|(e & He & Hfind & H)]];
    rewrite H; simpl; try reflexivity.
  rewrite !check_availability_eq. simpl.
  destruct (add_minutes s d) as [e'|]; [|reflexivity].
  rewrite find_snoc_miss; [reflexivity|].
  unfold overlap_filter. simpl.
  destruct (pystr_eqb body.(in_barber_id) b) eqn:E; [|reflexivity].
  apply pystr_eqb_eq in E. congruence.
Qed.

Lemma create_other_barber_independent_witness :
  fst (check_availability (lit "C") (at_minute 540) 45
         (snd (create_appointment (sample_request (at_minute 540) 45)
                 sample_store)))
  = fst (check_availability (lit "C") (at_minute 540) 45 sample_store).
Proof. apply create_other_barber_independent. simpl. discriminate. Defined.

(** A free slot stays free on every sub-interval: if [[s, s + d)] is
    available then so is any representable [[s', e')] inside it. *)
Theorem check_availability_sub_interval (st : store) (b : pystr)
    (s d s' d' e' : Z)
    (Hfree : fst (check_availability b s d st) = Ok true)
    (He' : add_minutes s' d' = Some e')
    (Hs : s <= s') (He : e' <= s + d * ms_per_minute) :
  fst (check_availability b s' d' st) = Ok true.
Proof.
  rewrite check_availability_eq in Hfree |- *. simpl in Hfree |- *.
  rewrite He'.
  destruct (add_minutes s d) as [e|] eqn:Ee; [|discriminate].
  apply add_minutes_some_inv in Ee. subst e.
  destruct (find (overlap_filter b s _) st.(appointments)) eqn:F;
    [discriminate|].
  rewrite find_none_iff in F.
  replace (find _ _) with (@None document); [reflexivity|].
  symmetry. apply find_none_iff. intros y Hy.
  specialize (F y Hy).
  destruct (overlap_filter b s' e' y) eqn:G; [|reflexivity].
  apply overlap_filter_true in G. destruct G as (G1 & G2 & G3 & G4).
  assert (Hc : overlap_filter b s (s + d * ms_per_minute) y = true)
    by (apply overlap_filter_true; repeat split; auto; lia).
  congruence.
Qed.

Lemma check_availability_sub_interval_witness :
  fst (check_availability (lit "B") (at_minute 640) 10 sample_store) = Ok true.
Proof.
  apply (check_availability_sub_interval _ _ (at_minute 630) 60 _ _
           (at_minute 650));
    [vm_compute; reflexivity | vm_compute; reflexivity
    | unfold at_minute, ms_per_minute; lia | unfold at_minute, ms_per_minute; lia].
Defined.

(** Booking, cancelling that booking, and booking the same request again:
    the cancel succeeds on the fresh [_id], the slot is free again, and the
    repeated create succeeds. *)
Theorem create_cancel_rebook (body : AppointmentIn) (now : instant)
    (st : store) (r : option document)
    (Hfresh : ids_fresh st)
    (Hok : fst (create_appointment body st) = Ok r) :
  let st1 := snd (create_appointment body st) in
  let st2 := snd (cancel_appointment st.(next_oid) now st1) in
  (exists a, fst (cancel_appointment st.(next_oid) now st1)
             = Ok (Some (st.(next_oid), set_canceled now a))
             /\ r = Some (st.(next_oid), a))
  /\ check_availability body.(in_barber_id) body.(in_start_time)
       body.(in_duration_min) st2 = (Ok true, st2)
  /\ exists r', fst (create_appointment body st2) = Ok r'.
Proof.
  destruct (create_appointment_cases body st)
    as [[H _]|[(e & c & _ & _ & H)|(e & He & Hfind & H)]];
    rewrite H in Hok |- *; simpl in Hok; try discriminate.
  cbv zeta. simpl snd.
  rewrite find_app_fresh in Hok by exact Hfresh. injection Hok as <-.
  match goal with
  | |- context [ st.(appointments) ++ [(st.(next_oid), ?a)] ] => set (x := a)
  end.
  assert (Hc : cancel_appointment st.(next_oid) now
                 {| appointments := st.(appointments) ++ [(st.(next_oid), x)];
                    next_oid := N.succ st.(next_oid) |}
               = (Ok (Some (st.(next_oid), set_canceled now x)),
                  {| appointments := st.(appointments)
                                     ++ [(st.(next_oid), set_canceled now x)];
                     next_oid := N.succ st.(next_oid) |})).
  { unfold cancel_appointment, update_one, bind, find_one. simpl.
    rewrite update_first_snoc_fresh by exact Hfresh.
    replace (appointment_eqb (set_canceled now x) x) with false
      by (symmetry; apply not_true_iff_false; rewrite appointment_eqb_eq;
          intros Heq; apply (f_equal status) in Heq; discriminate).
    simpl. rewrite find_app_fresh by exact Hfresh. reflexivity. }
  rewrite Hc. simpl.
  assert (Hf2 : find (overlap_filter body.(in_barber_id) body.(in_start_time) e)
                  (st.(appointments) ++ [(st.(next_oid), set_canceled now x)])
                = None)
    by (rewrite find_snoc_miss by apply overlap_set_canceled; exact Hfind).
  split; [eauto|split].
  - rewrite check_availability_eq, He. simpl. rewrite Hf2. reflexivity.
  - unfold create_appointment, timedelta_add, bind, find_one, ret,
      create_document.
    rewrite He. simpl. rewrite Hf2. simpl. eexists. reflexivity.
Qed.

Lemma create_cancel_rebook_witness :
  exists r', fst (create_appointment (sample_request (at_minute 540) 45)
                    (snd (cancel_appointment 1%N (at_minute 545)
                       (snd (create_appointment (sample_request (at_minute 540) 45)
                               sample_store))))) = Ok r'.
Proof.
  assert (Hok : exists r, fst (create_appointment
                   (sample_request (at_minute 540) 45) sample_store) = Ok r)
    by (eexists; vm_compute; reflexivity).
  destruct Hok as [r Hok].
  assert (Hf : ids_fresh sample_store)
    by (unfold ids_fresh; simpl; repeat constructor).
  destruct (create_cancel_rebook _ (at_minute 545) _ r Hf Hok) as (_ & _ & H).
  exact H.
Defined.
End BookingMore.

(** * The public listing *)
Module ListingFacts.
Import PyStr Booking Listing Samples BookingFacts MaskFacts MaskMore.

Lemma mask_phone_few_digits (phone : pystr) :
  (List.length (filter py_isdigit (mask_phone phone)) <= 4)%nat.
Proof.
  unfold mask_phone.
  destruct (Nat.ltb_spec (List.length (filter py_isdigit phone)) 4).
  - simpl. lia.
  - rewrite filter_app, (filter_forallb_id _ _ (forallb_filter_skipn _ _)).
    simpl. rewrite length_skipn. lia.
Qed.

(** [list_appointments] never writes, never returns notes, and shows at
    most the last four digits of any phone number; every other field of the
    selected documents ([_id], barber, service, times, status) is returned
    as stored, in store order. *)
Theorem list_appointments_private (barber_id_ : option pystr) (st : store) :
  snd (list_appointments barber_id_ st) = st
  /\ exists sel l,
       fst (list_appointments barber_id_ st) = Ok l
       /\ incl sel st.(appointments)
       /\ map (fun d => (fst d, (snd d).(barber_id), (snd d).(service_name),
                         (snd d).(start_time), (snd d).(end_time),
                         (snd d).(status))) l
          = map (fun d => (fst d, (snd d).(barber_id), (snd d).(service_name),
                           (snd d).(start_time), (snd d).(end_time),
                           (snd d).(status))) sel
       /\ Forall (fun d => (snd d).(notes) = None
                  /\ (List.length (filter py_isdigit (snd d).(customer_phone))
                      <= 4)%nat) l.
Proof.
  split; [destruct barber_id_ as [b|]; [destruct (nonempty b)|]; reflexivity|].
  set (sel := match barber_id_ with
              | Some b => if nonempty b
                          then filter (fun d => pystr_eqb (snd d).(barber_id) b)
                                 st.(appointments)
                          else st.(appointments)
              | None => st.(appointments)
              end).
  exists sel, (map sanitize sel). split; [|split; [|split]].
  - unfold list_appointments, sel. reflexivity.
  - unfold sel. destruct barber_id_ as [b|]; [destruct (nonempty b)|];
      intros x Hx; [apply filter_In in Hx; apply Hx|exact Hx|exact Hx].
  - rewrite map_map. apply map_ext. intros [o a]. reflexivity.
  - apply Forall_forall. intros x Hx. apply in_map_iff in Hx.
    destruct Hx as ([o a] & <- & _). simpl. split; [reflexivity|].
    apply mask_phone_few_digits.
Qed.

(** Listing one barber is the full listing restricted to that barber: the
    query filter commutes with the masking. *)
Theorem list_appointments_by_barber (b : pystr) (st : store)
    (Hb : nonempty b = true) :
  list_appointments (Some b) st
  = (match fst (list_appointments None st) with
     | Ok l => Ok (filter (fun d => pystr_eqb (snd d).(barber_id) b) l)
     | Err e => Err e
     end, st).
Proof.
  unfold list_appointments. simpl. rewrite Hb. f_equal. f_equal.
  induction st.(appointments) as [|[o a] l IH]; [reflexivity|].
  simpl. destruct (pystr_eqb a.(barber_id) b); simpl; rewrite IH; reflexivity.
Qed.

Lemma list_appointments_by_barber_witness :
  list_appointments (Some (lit "B")) sample_store
  = (match fst (list_appointments None sample_store) with
     | Ok l => Ok (filter (fun d => pystr_eqb (snd d).(barber_id) (lit "B")) l)
     | Err e => Err e
     end, sample_store).
Proof. apply list_appointments_by_barber. reflexivity. Defined.

End ListingFacts.

(** * The catalog: startup seed and POST endpoints *)
Module CatalogFacts.
Import PyStr Booking Catalog BookingFacts BookingMore.
Local Open Scope Z_scope.

(** ** Helpers *)

Lemma catalog_eta (c : catalog) :
  {| barber_coll := c.(barber_coll); service_coll := c.(service_coll);
     catalog_next_oid := c.(catalog_next_oid) |} = c.
Proof. destruct c; reflexivity. Qed.

Lemma Forall_lt_succ {B} (l : list (object_id * B)) (n : N) :
  Forall (fun d => (fst d < n)%N) l -> Forall (fun d => (fst d < N.succ n)%N) l.
Proof.
  apply Forall_impl. intros [o b] H. simpl in *. apply N.lt_lt_succ_r. exact H.
Qed.

Lemma nodup_fst_unique {B} (l : list (object_id * B)) (o : object_id) (x y : B) :
  NoDup (map fst l) -> In (o, x) l -> In (o, y) l -> x = y.
Proof.
  induction l as [|[o' z] l IH]; intros Hnd Hx Hy; [destruct Hx|].
  simpl in Hnd. apply NoDup_cons_iff in Hnd. destruct Hnd as [Hno Hnd'].
  destruct Hx as [Hx|Hx], Hy as [Hy|Hy].
  - congruence.
  - inversion Hx; subst. exfalso. apply Hno. apply (in_map fst) in Hy. exact Hy.
  - inversion Hy; subst. exfalso. apply Hno. apply (in_map fst) in Hx. exact Hx.
  - exact (IH Hnd' Hx Hy).
Qed.

Lemma nodup_fresh_snoc {B} (l : list (object_id * B)) (n : N) (x : B) :
  Forall (fun d => (fst d < n)%N) l -> NoDup (map fst l) ->
  NoDup (map fst (l ++ [(n, x)])).
Proof.
  intros Hf Hnd. rewrite map_app. apply NoDup_app; [exact Hnd|repeat constructor; auto|].
  intros o Ho Hn. destruct Hn as [Hn|[]]. simpl in Hn. subst o.
  apply in_map_iff in Ho. destruct Ho as ([o b] & Ho & Hin).
  apply (proj1 (Forall_forall _ _) Hf) in Hin. simpl in Ho, Hin. subst o.
  exact (N.lt_irrefl _ Hin).
Qed.

Lemma map_fst_update_service (oid : object_id) (f : Service -> Service)
    (l : list (object_id * Service)) :
  map fst (update_service_by_id oid f l) = map fst l.
Proof.
  induction l as [|[o x] l IH]; simpl; [reflexivity|].
  destruct (N.eqb o oid); simpl; [reflexivity|rewrite IH; reflexivity].
Qed.

Lemma update_service_split (oid : object_id) (f : Service -> Service)
    (l : list (object_id * Service)) (x : Service)
    (Hnd : NoDup (map fst l)) (Hin : In (oid, x) l) :
  exists l1 l2, l = l1 ++ (oid, x) :: l2
    /\ update_service_by_id oid f l = l1 ++ (oid, f x) :: l2.
Proof.
  induction l as [|[o y] l IH]; [destruct Hin|].
  simpl in Hnd. apply NoDup_cons_iff in Hnd. destruct Hnd as [Hno Hnd'].
  simpl. destruct (N.eqb_spec o oid) as [->|Hne].
  - assert (y = x).
    { apply (nodup_fst_unique ((oid, y) :: l) oid);
        [simpl; constructor; assumption|left; reflexivity|exact Hin]. }
    subst y. exists [], l. split; reflexivity.
  - destruct Hin as [Hin|Hin]; [injection Hin as -> _; congruence|].
    destruct (IH Hnd' Hin) as (l1 & l2 & -> & ->).
    exists ((o, y) :: l1), l2. split; reflexivity.
Qed.

Lemma update_service_id (oid : object_id) (f : Service -> Service)
    (l : list (object_id * Service))
    (H : forall y, In (oid, y) l -> f y = y) :
  update_service_by_id oid f l = l.
Proof.
  induction l as [|[o y] l IH]; simpl; [reflexivity|].
  destruct (N.eqb_spec o oid) as [->|Hne].
  - rewrite (H y (or_introl eq_refl)). reflexivity.
  - rewrite IH; [reflexivity|]. intros y' Hy'. apply H. right. exact Hy'.
Qed.

Lemma find_update_service (n : pystr) (oid : object_id) (f : Service -> Service)
    (l : list (object_id * Service)) (x : Service)
    (Hnd : NoDup (map fst l))
    (F : find (named_service n) l = Some (oid, x))
    (Hfx : (f x).(s_name) = n) :
  find (named_service n) (update_service_by_id oid f l) = Some (oid, f x).
Proof.
  induction l as [|[o y] l IH]; [discriminate|].
  simpl in Hnd. apply NoDup_cons_iff in Hnd. destruct Hnd as [Hno Hnd'].
  simpl in F. destruct (named_service n (o, y)) eqn:E.
  - injection F as <- <-. simpl. rewrite N.eqb_refl. simpl.
    unfold named_service at 1. simpl. rewrite Hfx, pystr_eqb_refl. reflexivity.
  - assert (Hin : In (oid, x) l) by (apply find_some in F; apply F).
    assert (Hne : o <> oid)
      by (intros ->; apply Hno; apply (in_map fst) in Hin; exact Hin).
    simpl. apply N.eqb_neq in Hne. rewrite Hne. simpl. rewrite E.
    exact (IH Hnd' F).
Qed.

Lemma set_price_duration_fixed (d : Z) (x : Service) :
  x.(s_duration_min) = d -> x.(s_price) = haircut_price ->
  set_price_duration d x = x.
Proof. destruct x; simpl; intros -> ->; reflexivity. Qed.

(** ** One seed step *)

Lemma seed_barber_shape (c : catalog) (n : pystr) :
  (seed_barber c n).(service_coll) = c.(service_coll)
  /\ (exists nb, (seed_barber c n).(barber_coll) = c.(barber_coll) ++ nb)
  /\ (exists d, In d (seed_barber c n).(barber_coll) /\ (snd d).(b_name) = n).
Proof.
  unfold seed_barber.
  destruct (Nat.eqb_spec (List.length (filter (named_barber n) c.(barber_coll))) 0)
    as [H|H]; simpl.
  - split; [reflexivity|]. split; [eexists; reflexivity|].
    eexists. split; [apply in_or_app; right; left; reflexivity|reflexivity].
  - split; [reflexivity|]. split; [exists []; rewrite app_nil_r; reflexivity|].
    destruct (filter (named_barber n) c.(barber_coll)) as [|d l] eqn:E;
      [simpl in H; contradiction|].
    assert (Hd : In d (filter (named_barber n) c.(barber_coll)))
      by (rewrite E; left; reflexivity).
    apply filter_In in Hd. destruct Hd as [Hin Hn].
    exists d. split; [exact Hin|]. apply pystr_eqb_eq. exact Hn.
Qed.

Lemma seed_barber_present (c : catalog) (n : pystr)
    (H : exists d, In d c.(barber_coll) /\ (snd d).(b_name) = n) :
  seed_barber c n = c.
Proof.
  destruct H as (d & Hin & Hn). unfold seed_barber.
  destruct (Nat.eqb_spec (List.length (filter (named_barber n) c.(barber_coll))) 0)
    as [H|H]; [|reflexivity].
  exfalso. apply length_zero_iff_nil in H.
  assert (Hd : In d (filter (named_barber n) c.(barber_coll))).
  { apply filter_In. split; [exact Hin|].
    unfold named_barber. rewrite Hn. apply pystr_eqb_refl. }
  rewrite H in Hd. destruct Hd.
Qed.

Lemma seed_barber_fresh (c : catalog) (n : pystr) :
  catalog_ids_fresh c -> catalog_ids_fresh (seed_barber c n).
Proof.
  intros [Hb Hs]. unfold seed_barber.
  destruct (Nat.eqb _ 0); [|split; assumption].
  split; simpl.
  - apply Forall_app. split; [apply Forall_lt_succ; exact Hb|].
    repeat constructor. apply N.lt_succ_diag_r.
  - apply Forall_lt_succ. exact Hs.
Qed.

Lemma seed_service_other (c : catalog) (s : Service)
    (Hs : pystr_eqb s.(s_name) (lit "Haircut") = false) :
  (seed_service c s).(barber_coll) = c.(barber_coll)
  /\ (exists ns, (seed_service c s).(service_coll) = c.(service_coll) ++ ns
                 /\ Forall (fun d => snd d = s) ns)
  /\ (exists d, In d (seed_service c s).(service_coll)
                /\ (snd d).(s_name) = s.(s_name)).
Proof.
  unfold seed_service.
  destruct (find (named_service s.(s_name)) c.(service_coll)) as [[oid x]|] eqn:F.
  - rewrite Hs. split; [reflexivity|].
    split; [exists []; rewrite app_nil_r; split; [reflexivity|constructor]|].
    apply find_some in F. destruct F as [Hin Hn].
    exists (oid, x). split; [exact Hin|]. apply pystr_eqb_eq. exact Hn.
  - simpl. split; [reflexivity|].
    split; [eexists; split; [reflexivity|repeat constructor]|].
    eexists. split; [apply in_or_app; right; left; reflexivity|reflexivity].
Qed.

Lemma seed_service_other_present (c : catalog) (s : Service)
    (Hs : pystr_eqb s.(s_name) (lit "Haircut") = false)
    (H : exists d, In d c.(service_coll) /\ (snd d).(s_name) = s.(s_name)) :
  seed_service c s = c.
Proof.
  destruct H as (d & Hin & Hn). unfold seed_service.
  destruct (find (named_service s.(s_name)) c.(service_coll)) as [[oid x]|] eqn:F.
  - rewrite Hs. reflexivity.
  - exfalso. pose proof (find_none _ _ F d Hin) as Hd.
    unfold named_service in Hd. rewrite Hn, pystr_eqb_refl in Hd. discriminate.
Qed.

Lemma seed_service_haircut (c : catalog) (s : Service)
    (Hs : s.(s_name) = lit "Haircut")
    (Hnd : NoDup (map fst c.(service_coll))) :
  (seed_service c s).(barber_coll) = c.(barber_coll)
  /\ (exists pre ns,
        (seed_service c s).(service_coll) = pre ++ ns
        /\ Forall (fun d => snd d = s) ns
        /\ match find (named_service (lit "Haircut")) c.(service_coll) with
           | None => pre = c.(service_coll)
           | Some (oid, x) =>
               exists l1 l2, c.(service_coll) = l1 ++ (oid, x) :: l2
                 /\ pre = l1 ++ (oid, set_price_duration s.(s_duration_min) x) :: l2
           end)
  /\ (exists oid x,
        find (named_service (lit "Haircut")) (seed_service c s).(service_coll)
          = Some (oid, x)
        /\ x.(s_duration_min) = s.(s_duration_min)
        /\ (x.(s_price) = s.(s_price) \/ x.(s_price) = haircut_price)).
Proof.
  unfold seed_service. rewrite Hs.
  destruct (find (named_service (lit "Haircut")) c.(service_coll))
    as [[oid x]|] eqn:F.
  - rewrite pystr_eqb_refl. simpl.
    assert (Hx : In (oid, x) c.(service_coll) /\ x.(s_name) = lit "Haircut").
    { apply find_some in F. destruct F as [Hin Hn].
      split; [exact Hin|]. apply pystr_eqb_eq. exact Hn. }
    destruct Hx as [Hin Hn].
    split; [reflexivity|]. split.
    + eexists _, []. rewrite app_nil_r. split; [reflexivity|].
      split; [constructor|].
      destruct (update_service_split oid (set_price_duration s.(s_duration_min))
                  _ x Hnd Hin) as (l1 & l2 & Hl & Hu).
      exists l1, l2. split; assumption.
    + exists oid, (set_price_duration s.(s_duration_min) x).
      split; [apply find_update_service; assumption|].
      split; [reflexivity|right; reflexivity].
  - simpl. split; [reflexivity|]. split.
    + exists c.(service_coll), [(c.(catalog_next_oid), s)].
      split; [reflexivity|]. split; [repeat constructor|reflexivity].
    + exists c.(catalog_next_oid), s.
      split; [apply find_snoc_hit; [exact F|]|split; [reflexivity|left; reflexivity]].
      unfold named_service. simpl. rewrite Hs. apply pystr_eqb_refl.
Qed.

Lemma seed_service_fresh (c : catalog) (s : Service) :
  catalog_ids_fresh c -> NoDup (map fst c.(service_coll)) ->
  catalog_ids_fresh (seed_service c s)
  /\ NoDup (map fst (seed_service c s).(service_coll)).
Proof.
  intros [Hb Hs] Hnd. unfold seed_service.
  destruct (find (named_service s.(s_name)) c.(service_coll)) as [[oid x]|].
  - destruct (pystr_eqb _ _); [|split; [split|]; assumption].
    simpl. split; [split; [exact Hb|]|rewrite map_fst_update_service; exact Hnd].
    apply Forall_forall. intros d Hd.
    assert (Hd' : In (fst d) (map fst c.(service_coll)))
      by (rewrite <- (map_fst_update_service oid
                        (set_price_duration s.(s_duration_min)));
          apply in_map; exact Hd).
    apply in_map_iff in Hd'. destruct Hd' as (d0 & Hd0 & Hin).
    rewrite <- Hd0. exact (proj1 (Forall_forall _ _) Hs d0 Hin).
  - simpl. split; [split|].
    + apply Forall_lt_succ. exact Hb.
    + apply Forall_app. split; [apply Forall_lt_succ; exact Hs|].
      repeat constructor. apply N.lt_succ_diag_r.
    + apply nodup_fresh_snoc; assumption.
Qed.

(** ** The seed loops *)

Lemma fold_seed_barber_shape (names : list pystr) (c : catalog) :
  (fold_left seed_barber names c).(service_coll) = c.(service_coll)
  /\ (exists nb, (fold_left seed_barber names c).(barber_coll)
                 = c.(barber_coll) ++ nb)
  /\ (forall n, In n names ->
        exists d, In d (fold_left seed_barber names c).(barber_coll)
                  /\ (snd d).(b_name) = n).
Proof.
  revert c. induction names as [|n names IH]; intros c; simpl.
  - split; [reflexivity|]. split; [exists []; rewrite app_nil_r; reflexivity|].
    intros _ [].
  - destruct (seed_barber_shape c n) as (Hs1 & [nb1 Hb1] & Hn1).
    destruct (IH (seed_barber c n)) as (Hs2 & [nb2 Hb2] & Hn2).
    split; [congruence|]. split.
    + exists (nb1 ++ nb2). rewrite Hb2, Hb1, app_assoc. reflexivity.
    + intros m [<-|Hm]; [|exact (Hn2 m Hm)].
      destruct Hn1 as (d & Hd & Hdn). exists d. split; [|exact Hdn].
      rewrite Hb2. apply in_or_app. left. exact Hd.
Qed.

Lemma fold_seed_barber_present (names : list pystr) (c : catalog)
    (H : forall n, In n names ->
           exists d, In d c.(barber_coll) /\ (snd d).(b_name) = n) :
  fold_left seed_barber names c = c.
Proof.
  revert c H. induction names as [|n names IH]; intros c H; simpl; [reflexivity|].
  rewrite seed_barber_present by (apply H; left; reflexivity).
  apply IH. intros m Hm. apply H. right. exact Hm.
Qed.

Lemma fold_seed_barber_fresh (names : list pystr) (c : catalog) :
  catalog_ids_fresh c -> catalog_ids_fresh (fold_left seed_barber names c).
Proof.
  revert c. induction names as [|n names IH]; intros c H; simpl; [exact H|].
  apply IH, seed_barber_fresh, H.
Qed.

Lemma fold_seed_service_fresh (ss : list Service) (c : catalog) :
  catalog_ids_fresh c -> NoDup (map fst c.(service_coll)) ->
  catalog_ids_fresh (fold_left seed_service ss c)
  /\ NoDup (map fst (fold_left seed_service ss c).(service_coll)).
Proof.
  revert c. induction ss as [|s ss IH]; intros c Hf Hnd; simpl; [auto|].
  destruct (seed_service_fresh c s Hf Hnd). apply IH; assumption.
Qed.

Lemma default_services_eq :
  default_services =
  [ {| s_name := lit "Haircut"; s_description := None;
       s_duration_min := 30; s_price := haircut_price |};
    {| s_name := lit "Beard Trim"; s_description := None;
       s_duration_min := 15; s_price := float_of_Z 15 |};
    {| s_name := lit "Haircut + Beard"; s_description := None;
       s_duration_min := 45; s_price := float_of_Z 35 |} ].
Proof. reflexivity. Qed.

(** What [seed_defaults] leaves behind, on a service collection whose
    [_id]s are distinct. *)
Lemma seed_defaults_spec (c : catalog)
    (Hnd : NoDup (map fst c.(service_coll))) :
  (forall n, In n default_barber_names ->
     exists d, In d (seed_defaults c).(barber_coll) /\ (snd d).(b_name) = n)
  /\ (forall s, In s default_services ->
        exists d, In d (seed_defaults c).(service_coll)
                  /\ (snd d).(s_name) = s.(s_name))
  /\ (exists oid x,
        find (named_service (lit "Haircut")) (seed_defaults c).(service_coll)
          = Some (oid, x)
        /\ x.(s_price) = haircut_price /\ x.(s_duration_min) = 30)
  /\ (exists nb, (seed_defaults c).(barber_coll) = c.(barber_coll) ++ nb)
  /\ (exists pre ns,
        (seed_defaults c).(service_coll) = pre ++ ns
        /\ Forall (fun d => In (snd d) default_services) ns
        /\ match find (named_service (lit "Haircut")) c.(service_coll) with
           | None => pre = c.(service_coll)
           | Some (oid, x) =>
               exists l1 l2, c.(service_coll) = l1 ++ (oid, x) :: l2
                 /\ pre = l1 ++ (oid, set_price_duration 30 x) :: l2
           end).
Proof.
  unfold seed_defaults. rewrite default_services_eq. cbn [fold_left].
  set (cb := fold_left seed_barber default_barber_names c).
  destruct (fold_seed_barber_shape default_barber_names c)
    as (Hsv & [nb Hnb] & Hnames). fold cb in Hsv, Hnb, Hnames.
  set (hc := {| s_name := lit "Haircut"; s_description := None;
                s_duration_min := 30; s_price := haircut_price |}).
  set (bt := {| s_name := lit "Beard Trim"; s_description := None;
                s_duration_min := 15; s_price := float_of_Z 15 |}).
  set (hb := {| s_name := lit "Haircut + Beard"; s_description := None;
                s_duration_min := 45; s_price := float_of_Z 35 |}).
  set (c1 := seed_service cb hc). set (c2 := seed_service c1 bt).
  set (c3 := seed_service c2 hb).
  destruct (seed_service_haircut cb hc eq_refl ltac:(rewrite Hsv; exact Hnd))
    as (Hb1 & (pre & ns1 & Hs1 & Hns1 & Hrel) & (oid & x & Hx & Hxd & Hxp)).
  fold c1 in Hb1, Hs1, Hx.
  destruct (seed_service_other c1 bt eq_refl) as (Hb2 & (ns2 & Hs2 & Hns2) & Hp2).
  fold c2 in Hb2, Hs2, Hp2.
  destruct (seed_service_other c2 hb eq_refl) as (Hb3 & (ns3 & Hs3 & Hns3) & Hp3).
  fold c3 in Hb3, Hs3, Hp3.
  assert (Hx3 : find (named_service (lit "Haircut")) c3.(service_coll)
                = Some (oid, x))
    by (rewrite Hs3, Hs2, !find_app_split, Hx; reflexivity).
  split; [|split; [|split; [|split]]].
  - intros n Hn. rewrite Hb3, Hb2, Hb1. exact (Hnames n Hn).
  - intros s [<-|[<-|[<-|[]]]].
    + apply find_some in Hx3. destruct Hx3 as [Hin Hn].
      exists (oid, x). split; [exact Hin|]. apply pystr_eqb_eq. exact Hn.
    + destruct Hp2 as (d & Hd & Hdn). exists d. split; [|exact Hdn].
      rewrite Hs3. apply in_or_app. left. exact Hd.
    + exact Hp3.
  - exists oid, x. split; [exact Hx3|]. split; [|exact Hxd].
    destruct Hxp as [Hxp|Hxp]; exact Hxp.
  - exists nb. rewrite Hb3, Hb2, Hb1. exact Hnb.
  - exists pre, (ns1 ++ ns2 ++ ns3). split.
    + rewrite Hs3, Hs2, Hs1, !app_assoc. reflexivity.
    + split; [|rewrite <- Hsv; exact Hrel].
      apply Forall_app. split; [|apply Forall_app; split].
      * eapply Forall_impl; [|exact Hns1]. intros d ->. left. reflexivity.
      * eapply Forall_impl; [|exact Hns2]. intros d ->. right. left. reflexivity.
      * eapply Forall_impl; [|exact Hns3]. intros d ->. right. right. left.
        reflexivity.
Qed.

(** ** Properties of the startup seed *)

(** After [seed_defaults] every default barber and every default service
    is present, the first service named "Haircut" costs 18.0 and lasts 30
    minutes; the seed only appends barbers, only appends default services,
    and of the existing services it changes at most one: the first one
    named "Haircut" (the one [find_one] returns), whose price becomes 18.0
    and duration 30, in place; every other existing service is kept as it
    was (the [_id]s of the service collection being distinct, as MongoDB
    keeps them). *)
Theorem seed_defaults_post (c : catalog)
    (Hnd : NoDup (map fst c.(service_coll))) :
  let c' := seed_defaults c in
  (forall n, In n default_barber_names ->
     exists d, In d c'.(barber_coll) /\ (snd d).(b_name) = n)
  /\ (forall s, In s default_services ->
        exists d, In d c'.(service_coll) /\ (snd d).(s_name) = s.(s_name))
  /\ (exists oid x,
        find (named_service (lit "Haircut")) c'.(service_coll) = Some (oid, x)
        /\ x.(s_price) = haircut_price /\ x.(s_duration_min) = 30)
  /\ (exists nb, c'.(barber_coll) = c.(barber_coll) ++ nb)
  /\ (exists pre ns,
        c'.(service_coll) = pre ++ ns
        /\ Forall (fun d => In (snd d) default_services) ns
        /\ match find (named_service (lit "Haircut")) c.(service_coll) with
           | None => pre = c.(service_coll)
           | Some (oid, x) =>
               exists l1 l2, c.(service_coll) = l1 ++ (oid, x) :: l2
                 /\ pre = l1 ++ (oid, set_price_duration 30 x) :: l2
           end).
Proof. exact (seed_defaults_spec c Hnd). Qed.

Lemma seed_defaults_post_witness :
  exists oid x,
    find (named_service (lit "Haircut"))
      (seed_defaults {| barber_coll := [];
                        service_coll :=
                          [(0%N, {| s_name := lit "Haircut";
                                    s_description := Some (lit "Classic");
                                    s_duration_min := 25;
                                    s_price := float_of_Z 12 |})];
                        catalog_next_oid := 1%N |}).(service_coll)
      = Some (oid, x)
    /\ x.(s_price) = haircut_price /\ x.(s_duration_min) = 30.
Proof.
  destruct (seed_defaults_post
              {| barber_coll := [];
                 service_coll :=
                   [(0%N, {| s_name := lit "Haircut";
                             s_description := Some (lit "Classic");
                             s_duration_min := 25;
                             s_price := float_of_Z 12 |})];
                 catalog_next_oid := 1%N |})
    as (_ & _ & H & _); [simpl; repeat constructor; simpl; tauto|].
  exact H.
Defined.

(** Running the startup seed a second time changes nothing, on a catalog
    whose [_id]s are fresh and whose service [_id]s are distinct. *)
Theorem seed_defaults_idempotent (c : catalog)
    (Hfresh : catalog_ids_fresh c)
    (Hnd : NoDup (map fst c.(service_coll))) :
  seed_defaults (seed_defaults c) = seed_defaults c.
Proof.
  destruct (seed_defaults_spec c Hnd)
    as (Hnames & Hsvc & (oid & x & Hx & Hxp & Hxd) & _ & _).
  assert (Hnd' : NoDup (map fst (seed_defaults c).(service_coll))).
  { unfold seed_defaults.
    apply fold_seed_service_fresh;
      [apply fold_seed_barber_fresh; exact Hfresh|].
    destruct (fold_seed_barber_shape default_barber_names c) as (-> & _).
    exact Hnd. }
  set (c' := seed_defaults c) in *.
  unfold seed_defaults at 1.
  rewrite (fold_seed_barber_present _ _ Hnames).
  rewrite default_services_eq. cbn [fold_left].
  assert (H1 : seed_service c' {| s_name := lit "Haircut"; s_description := None;
                                  s_duration_min := 30;
                                  s_price := haircut_price |} = c').
  { unfold seed_service. cbn [s_name s_duration_min]. rewrite Hx.
    rewrite pystr_eqb_refl. rewrite update_service_id; [apply catalog_eta|].
    intros y Hy.
    assert (Hin : In (oid, x) c'.(service_coll)) by (apply find_some in Hx; apply Hx).
    rewrite (nodup_fst_unique _ _ _ _ Hnd' Hy Hin).
    apply set_price_duration_fixed; assumption. }
  rewrite H1.
  rewrite (seed_service_other_present c');
    [|reflexivity|apply (Hsvc _); right; left; reflexivity].
  apply seed_service_other_present;
    [reflexivity|apply (Hsvc _); right; right; left; reflexivity].
Qed.

Lemma seed_defaults_idempotent_witness :
  seed_defaults (seed_defaults {| barber_coll := []; service_coll := [];
                                  catalog_next_oid := 0%N |})
  = seed_defaults {| barber_coll := []; service_coll := [];
                     catalog_next_oid := 0%N |}.
Proof.
  apply seed_defaults_idempotent;
    [split; constructor|constructor].
Defined.

(** ** POST /api/barbers and POST /api/services *)

(** [add_barber] and [add_service] append the request body as it is,
    under a fresh [_id], to the end of what [list_barbers] and
    [list_services] return, leave the other collection alone, and return
    that very document: no schema bound on [duration_min] or [price] is
    checked. *)
Theorem add_catalog_roundtrip (bb : BarberIn) (sb : ServiceIn) (c : catalog)
    (Hfresh : catalog_ids_fresh c) :
  let b := {| b_name := bb.(bin_name); b_avatar_url := bb.(bin_avatar_url);
              b_bio := bb.(bin_bio) |} in
  let s := {| s_name := sb.(sin_name); s_description := sb.(sin_description);
              s_duration_min := sb.(sin_duration_min);
              s_price := sb.(sin_price) |} in
  fst (add_barber bb c) = Some (c.(catalog_next_oid), b)
  /\ list_barbers (snd (add_barber bb c))
     = list_barbers c ++ [(c.(catalog_next_oid), b)]
  /\ list_services (snd (add_barber bb c)) = list_services c
  /\ fst (add_service sb c) = Some (c.(catalog_next_oid), s)
  /\ list_services (snd (add_service sb c))
     = list_services c ++ [(c.(catalog_next_oid), s)]
  /\ list_barbers (snd (add_service sb c)) = list_barbers c.
Proof.
  destruct Hfresh as [Hb Hs].
  assert (Hfind : forall {B} (l : list (object_id * B)) (x : B),
            Forall (fun d => (fst d < c.(catalog_next_oid))%N) l ->
            find (fun d => N.eqb (fst d) c.(catalog_next_oid))
              (l ++ [(c.(catalog_next_oid), x)])
            = Some (c.(catalog_next_oid), x)).
  { intros B l x Hl. apply find_snoc_hit.
    - apply find_none_iff. intros [o y] Hin.
      apply (proj1 (Forall_forall _ _) Hl) in Hin. simpl in *.
      apply N.eqb_neq. intros ->. exact (N.lt_irrefl _ Hin).
    - simpl. apply N.eqb_refl. }
  intros b s. unfold add_barber, add_service, insert_barber, insert_service.
  simpl. rewrite !Hfind by assumption.
  repeat split; reflexivity.
Qed.

Lemma add_catalog_roundtrip_witness :
  let sb := {| sin_name := lit "Royal Shave"; sin_description := None;
               sin_duration_min := 1000;
               sin_price := FloatFinite (QArith_base.inject_Z (-5)) |} in
  let s := {| s_name := sb.(sin_name); s_description := sb.(sin_description);
              s_duration_min := sb.(sin_duration_min);
              s_price := sb.(sin_price) |} in
  fst (add_service sb {| barber_coll := []; service_coll := [];
                         catalog_next_oid := 0%N |}) = Some (0%N, s)
  /\ Service_schema_valid s = false.
Proof.
  intros sb s. split; [|reflexivity].
  destruct (add_catalog_roundtrip
              {| bin_name := lit "Ann"; bin_avatar_url := None; bin_bio := None |}
              sb {| barber_coll := []; service_coll := [];
                    catalog_next_oid := 0%N |})
    as (_ & _ & _ & H & _); [split; constructor|].
  exact H.
Defined.

End CatalogFacts.
